(** * Reddit research assistant (app.py): model and properties

    A shallow embedding of the pipeline of [app.py]: the batched
    summariser [summarise_threads], the report synthesiser
    [generate_report], the question input, and the download section
    (text and PDF export).

    Python strings are sequences of Unicode code points, thread records
    are dictionaries held by reference (so they live in a store and the
    thread list is a list of references), and every call into a library
    or a remote service (the chat-completion endpoint, [json], [random],
    the forum client, FPDF, the transliteration) is a parameter of the
    development. *)

From Stdlib Require Import ZArith QArith Qreduction Qround Lia List Ascii String DecimalString.
From stdpp Require Import base option list strings.

Local Set Warnings "-register-all".
Local Open Scope Z_scope.
Local Open Scope list_scope.

(** ** Python values *)

(** A string is a sequence of code points; [len] and slicing count code
    points. *)
Definition pystr := list N.

(** An ASCII literal of the source. *)
Definition lit (s : string) : pystr :=
  map N_of_ascii (list_ascii_of_string s).

(** The line feed of the [\n] escapes. *)
Definition nl : pystr := [10%N].

(** [len(x)] as a Python integer. *)
Definition len {A} (l : list A) : Z := Z.of_nat (length l).

(** What [json.loads] can return.  Numbers keep their lexeme; an object
    is the insertion-ordered list of its items. *)
Inductive json :=
| JNull
| JBool (b : bool)
| JNum (lexeme : pystr)
| JStr (s : pystr)
| JArr (items : list json)
| JObj (items : list (pystr * json)).

(** [d.get(k)] on the items of a dictionary. *)
Fixpoint dict_lookup {V} (k : pystr) (d : list (pystr * V)) : option V :=
  match d with
  | [] => None
  | (k', v) :: d' => if decide (k = k') then Some v else dict_lookup k d'
  end.

(** [d[k] = v]: an existing key keeps its position, a new key goes last. *)
Fixpoint dict_set {V} (k : pystr) (v : V) (d : list (pystr * V)) : list (pystr * V) :=
  match d with
  | [] => [(k, v)]
  | (k', v') :: d' =>
      if decide (k = k') then (k', v) :: d' else (k', v') :: dict_set k v d'
  end.

(** Exceptions.  [External] stands for whatever a library or a remote
    service raises (API errors, [JSONDecodeError], ...). *)
Inductive exn :=
| ValueError
| IndexError
| KeyError (k : string)
| AttributeError
| TypeError
| ZeroDivisionError
| NameError (name : string)
| StopScript
| DanglingReference
| External (code : nat).

Inductive result (A : Type) :=
| Ok (a : A)
| Raise (e : exn).
Arguments Ok {A} a.
Arguments Raise {A} e.

(** ** Slices and ranges *)

(** [l[i:j]] for integers [i] and [j]: negative indices count from the
    end, both ends are clamped to the list. *)
Definition slice_index {A} (l : list A) (i : Z) : nat :=
  let i' := if i <? 0 then Z.max 0 (i + len l) else Z.min i (len l) in
  Z.to_nat i'.

Definition py_slice {A} (l : list A) (i j : Z) : list A :=
  let lo := slice_index l i in
  let hi := slice_index l j in
  take (hi - lo) (drop lo l).

(** The number of items of [range(start, stop, step)] for [step <> 0]. *)
Definition range_length (start stop step : Z) : Z :=
  if 0 <? step
  then (if start <? stop then (stop - start - 1) / step + 1 else 0)
  else (if stop <? start then (start - stop - 1) / (- step) + 1 else 0).

(** [range(start, stop, step)]; a zero step is a [ValueError]. *)
Definition py_range (start stop step : Z) : result (list Z) :=
  if step =? 0 then Raise ValueError
  else Ok (map (fun k => start + Z.of_nat k * step)
               (seq 0 (Z.to_nat (range_length start stop step)))).

(** The batches of [summarise_threads]: [threads[i:i + batch]] for
    [i in range(0, total, batch)]. *)
Definition batches {A} (threads : list A) (batch : Z) : result (list (list A)) :=
  match py_range 0 (len threads) batch with
  | Ok idx => Ok (map (fun i => py_slice threads i (i + batch)) idx)
  | Raise e => Raise e
  end.

(** [sep.join(parts)]. *)
Fixpoint join (sep : pystr) (parts : list pystr) : pystr :=
  match parts with
  | [] => []
  | [p] => p
  | p :: rest => p ++ sep ++ join sep rest
  end.

(** [l[:n]]. *)
Definition upto {A} (n : Z) (l : list A) : list A := py_slice l 0 n.

(** [str(n)] for an integer. *)
Definition decimal (n : Z) : pystr := lit (NilEmpty.string_of_int (Z.to_int n)).

(** [a / b] on integers: the quotient (here the exact rational in lowest
    terms of which Python's float is the rounding), or
    [ZeroDivisionError]. *)
Definition py_truediv (a b : Z) : result Q :=
  if b =? 0 then Raise ZeroDivisionError
  else Ok (Qred (inject_Z a / inject_Z b)).

(** [obj.get(k, default)]: only a dictionary has the method. *)
Definition get_method (obj : json) (k : pystr) (dflt : json) : result json :=
  match obj with
  | JObj items =>
      match dict_lookup k items with Some v => Ok v | None => Ok dflt end
  | _ => Raise AttributeError
  end.

(** ** Question input: [str.splitlines] and [str.strip] *)

(** The line boundaries of [str.splitlines]. *)
Definition is_linebreak (c : N) : bool :=
  bool_decide (c ∈ [10; 11; 12; 13; 28; 29; 30; 133; 8232; 8233]%N).

(** The white space of [str.strip] and [str.isspace]. *)
Definition is_space (c : N) : bool :=
  ((9 <=? c) && (c <=? 13) || (28 <=? c) && (c <=? 32)
   || (8192 <=? c) && (c <=? 8202)
   || bool_decide (c ∈ [133; 160; 5760; 8232; 8233; 8239; 8287; 12288]%N))%N.

(** [s.splitlines()]: [cur] holds the current line, reversed.  A
    carriage return followed by a line feed is one boundary, and a
    boundary at the very end opens no further line. *)
Fixpoint splitlines_from (cur : pystr) (s : pystr) : list pystr :=
  match s with
  | [] => match cur with [] => [] | _ => [rev cur] end
  | c :: rest =>
      if is_linebreak c then
        rev cur ::
          match rest with
          | c' :: rest' =>
              if ((c =? 13) && (c' =? 10))%N then splitlines_from [] rest'
              else splitlines_from [] rest
          | [] => splitlines_from [] rest
          end
      else splitlines_from (c :: cur) rest
  end.

Definition splitlines (s : pystr) : list pystr := splitlines_from [] s.

Fixpoint lstrip (s : pystr) : pystr :=
  match s with
  | c :: rest => if is_space c then lstrip rest else s
  | [] => []
  end.

Definition rstrip (s : pystr) : pystr := rev (lstrip (rev s)).

Definition strip (s : pystr) : pystr := lstrip (rstrip s).

(** Truth value of a string: non-empty. *)
Definition truthy (s : pystr) : bool :=
  match s with [] => false | _ => true end.

(** [[q.strip() for q in qs_text.splitlines() if q.strip()]]. *)
Definition stripped_questions (qs_text : pystr) : list pystr :=
  map strip (List.filter (fun q => truthy (strip q)) (splitlines qs_text)).

(** [questions], line 172: the comprehension sliced with [[:5]]. *)
Definition questions (qs_text : pystr) : list pystr :=
  upto 5 (stripped_questions qs_text).

(** ** Threads, the store and the log of effects *)

(** A thread dictionary as [fetch_threads] builds it; [summary] is the
    key that [summarise_threads] adds. *)
Module Thread.
Record t := mk {
  id : pystr;
  title : pystr;
  body : pystr;
  comments : pystr;
  url : pystr;
  created : pystr;
  summary : option json
}.

(** [t["summary"] = v]. *)
Definition set_summary (v : json) (th : t) : t :=
  {| id := id th; title := title th; body := body th;
     comments := comments th; url := url th; created := created th;
     summary := Some v |}.

(** The keys other than [summary]. *)
Definition fetched (th : t) : pystr * pystr * pystr * pystr * pystr * pystr :=
  (id th, title th, body th, comments th, url th, created th).
End Thread.

(** A reference to a thread dictionary. *)
Abbreviation loc := nat (only parsing).

Record message := { role : pystr; content : pystr }.

Inductive download_data :=
| DataStr (s : pystr)
| DataBytes (b : list Byte.byte).

(** What the run does, in order: calls to the collaborators (widgets,
    chat-completion endpoint, forum client, clock) and assignments of
    the [summary] key. *)
Inductive event :=
| StatusMarkdown (text : pystr)
| SampleMarkdown (text : pystr)
| ChatCompletion (model : pystr) (messages : list message)
| ProgressBar (fraction : Q)
| TimerCb
| Sleep (seconds : Q)
| AssignSummary (l : loc) (v : json)
| RedditNew (sub : pystr) (limit : Z)
| StError (text : pystr)
| StProgress (fraction : Q)
| StSuccess (text : pystr)
| StJson (items : list json)
| StMarkdown (text : pystr)
| StDownloadButton (label : pystr) (data : download_data) (file_name mime : pystr).

Record world := { heap : list Thread.t; trace : list event }.

(** The language-model calls of a log. *)
Definition model_calls (tr : list event) : list (pystr * list message) :=
  omap (fun e => match e with ChatCompletion m msgs => Some (m, msgs) | _ => None end) tr.

(** The completion fractions reported to the progress bar. *)
Definition fractions (tr : list event) : list Q :=
  omap (fun e => match e with ProgressBar q => Some q | _ => None end) tr.

(** The threads whose [summary] was assigned, one entry per assignment. *)
Definition assigned (tr : list event) : list loc :=
  omap (fun e => match e with AssignSummary l _ => Some l | _ => None end) tr.

(** The events logged since [w]. *)
Definition events_since (w w' : world) : list event :=
  drop (length (trace w)) (trace w').

Fixpoint increasing (l : list Q) : Prop :=
  match l with
  | a :: (b :: _) as rest => (a < b)%Q /\ increasing rest
  | _ => True
  end.

(** ** Computations: state and exceptions *)

(** A computation runs on a state and either returns or raises; the
    state it leaves is kept in both cases. *)
Definition Comp (S A : Type) : Type := S -> result A * S.

Definition ret {S A} (a : A) : Comp S A := fun s => (Ok a, s).
Definition raise {S A} (e : exn) : Comp S A := fun s => (Raise e, s).
Definition lift {S A} (r : result A) : Comp S A := fun s => (r, s).

Definition bind {S A B} (m : Comp S A) (k : A -> Comp S B) : Comp S B :=
  fun s =>
    match m s with
    | (Ok a, s') => k a s'
    | (Raise e, s') => (Raise e, s')
    end.

(** [try: body / except: handler], a bare [except]. *)
Definition try_except {S A} (body : Comp S A) (handler : exn -> Comp S A) : Comp S A :=
  fun s =>
    match body s with
    | (Ok a, s') => (Ok a, s')
    | (Raise e, s') => handler e s'
    end.

Declare Scope comp_scope.
Delimit Scope comp_scope with comp.
Notation "x <- m ;; k" := (bind m (fun x => k))
  (at level 100, m at next level, k at level 200, right associativity) : comp_scope.
Notation "m ;; k" := (bind m (fun _ => k))
  (at level 100, k at level 200, right associativity) : comp_scope.
Local Open Scope comp_scope.

(** [for x in l: body(x)]. *)
Fixpoint for_each {S A} (body : A -> Comp S unit) (l : list A) : Comp S unit :=
  match l with
  | [] => ret tt
  | x :: l' => body x ;; for_each body l'
  end.

(** A [for] loop that carries a local variable. *)
Fixpoint for_fold {S A B} (body : B -> A -> Comp S B) (acc : B) (l : list A) : Comp S B :=
  match l with
  | [] => ret acc
  | x :: l' => acc' <- body acc x ;; for_fold body acc' l'
  end.

(** A comprehension whose element expression can raise. *)
Fixpoint map_comp {S A B} (f : A -> Comp S B) (l : list A) : Comp S (list B) :=
  match l with
  | [] => ret []
  | x :: l' => y <- f x ;; ys <- map_comp f l' ;; ret (y :: ys)
  end.

Definition emit (e : event) : Comp world unit :=
  fun w => (Ok tt, {| heap := heap w; trace := trace w ++ [e] |}).

Definition get_trace : Comp world (list event) := fun w => (Ok (trace w), w).

(** Reading through a reference. *)
Definition deref (l : loc) : Comp world Thread.t :=
  fun w =>
    match heap w !! l with
    | Some th => (Ok th, w)
    | None => (Raise DanglingReference, w)
    end.

(** A new dictionary. *)
Definition alloc (th : Thread.t) : Comp world loc :=
  fun w => (Ok (length (heap w)), {| heap := heap w ++ [th]; trace := trace w |}).

(** [t["summary"] = v] through the reference [l]. *)
Definition assign_summary (l : loc) (v : json) : Comp world unit :=
  fun w =>
    match heap w !! l with
    | Some th =>
        (Ok tt, {| heap := <[l := Thread.set_summary v th]> (heap w);
                   trace := trace w ++ [AssignSummary l v] |})
    | None => (Raise DanglingReference, w)
    end.

(** A post of the forum listing; [post_comments] is what expanding and
    flattening its comment tree gives. *)
Record submission := {
  post_id : pystr;
  post_title : pystr;
  post_selftext : pystr;
  post_url : pystr;
  post_created_utc : Q;
  post_comments : result (list pystr)
}.

(** The [header] and [footer] of an FPDF subclass, which the library
    calls back when it lays out a page. *)
Record page_hooks (fpdf : Type) := {
  header : Comp fpdf unit;
  footer : Comp fpdf unit
}.
Arguments header {fpdf} _.
Arguments footer {fpdf} _.

(** ** The text buffer of the text export *)

(** [io.StringIO()] with its default [newline]: no translation on
    writing. *)
Module StringIO.
Record t := mk { buffer : pystr; pos : nat }.

Definition new : t := {| buffer := []; pos := 0 |}.

(** [write] overwrites from the current position, padding with NUL when
    the position lies past the end. *)
Definition write (s : pystr) (f : t) : t :=
  {| buffer := take (pos f) (buffer f)
               ++ replicate (pos f - length (buffer f)) 0%N
               ++ s ++ drop (pos f + length s) (buffer f);
     pos := pos f + length s |}.

Definition getvalue (f : t) : pystr := buffer f.
End StringIO.

(** ** Names of the module namespace *)

(** The built-in functions of the language (its built-in exception
    classes and constants, which the download section does not read, are
    left out). *)
Definition builtins : list string :=
  ["abs"; "aiter"; "all"; "anext"; "any"; "ascii"; "bin"; "bool";
   "breakpoint"; "bytearray"; "bytes"; "callable"; "chr"; "classmethod";
   "compile"; "complex"; "delattr"; "dict"; "dir"; "divmod"; "enumerate";
   "eval"; "exec"; "filter"; "float"; "format"; "frozenset"; "getattr";
   "globals"; "hasattr"; "hash"; "help"; "hex"; "id"; "input"; "int";
   "isinstance"; "issubclass"; "iter"; "len"; "list"; "locals"; "map";
   "max"; "memoryview"; "min"; "next"; "object"; "oct"; "open"; "ord";
   "pow"; "print"; "property"; "range"; "repr"; "reversed"; "round";
   "set"; "setattr"; "slice"; "sorted"; "staticmethod"; "str"; "sum";
   "super"; "tuple"; "type"; "vars"; "zip"; "__import__"]%string.

(** The names the script has bound at module level when a run reaches
    the download section (lines 8 to 199). *)
Definition names_before_download : list string :=
  ["os"; "json"; "time"; "random"; "io"; "datetime"; "timezone"; "List";
   "Dict"; "Callable"; "unidecode"; "st"; "load_dotenv"; "openai"; "praw";
   "FPDF"; "REDDIT_CLIENT_ID"; "REDDIT_CLIENT_SECRET"; "REDDIT_USER_AGENT";
   "reddit"; "GENRE_DEFAULT_SUB"; "fetch_threads"; "summarise_threads";
   "generate_report"; "ticker"; "start_time"; "tick"; "col1"; "col2";
   "genre_input"; "n_posts"; "subreddit"; "qs_text"; "questions";
   "threads"; "progress"; "status"; "sample_preview"; "report_md"]%string.

(** A [class] statement: the functions defined in its body become
    attributes of the class; only the class name is bound in the
    enclosing namespace. *)
Record class_stmt := { class_name : string; class_attributes : list string }.

Definition exec_class (c : class_stmt) (ns : list string) : list string :=
  class_name c :: ns.

(** An assignment or an import binds its target. *)
Definition bind_name (name : string) (ns : list string) : list string :=
  name :: ns.

(** Reading a global name: the module namespace, then the built-ins,
    else [NameError]. *)
Definition load_name (name : string) (ns : list string) : result unit :=
  if bool_decide (name ∈ ns ++ builtins) then Ok tt else Raise (NameError name).

(** The first [PDF] class, lines 211 to 225. *)
Definition PDF_class_1 : class_stmt :=
  {| class_name := "PDF"; class_attributes := ["header"; "footer"; "chapter_body"] |}.

(** The second [PDF] class, lines 237 to 258: [build_pdf] is defined in
    the class body. *)
Definition PDF_class_2 : class_stmt :=
  {| class_name := "PDF"; class_attributes := ["header"; "footer"; "build_pdf"] |}.

(** The module namespace when line 259 is reached. *)
Definition names_at_build_pdf_call : list string :=
  exec_class PDF_class_2
    (bind_name "unidecode"
       (bind_name "FPDF"
          (bind_name "pdf_output"
             (bind_name "pdf"
                (exec_class PDF_class_1
                   (bind_name "unidecode"
                      (bind_name "txt_buf" names_before_download))))))).

(** What [FPDF.output(dest="S")] returns, by library version. *)
Inductive output_value :=
| OutStr (s : pystr)
| OutBytes (b : list Byte.byte).

(** [s.encode("latin-1")]. *)
Fixpoint latin1_encode (s : pystr) : result (list Byte.byte) :=
  match s with
  | [] => Ok []
  | c :: rest =>
      match Byte.of_N c, latin1_encode rest with
      | Some b, Ok bs => Ok (b :: bs)
      | None, _ => Raise ValueError
      | _, Raise e => Raise e
      end
  end.

(** [x.encode("latin-1")] on the value of [output]: a byte array has no
    such method. *)
Definition encode_method (x : output_value) : result (list Byte.byte) :=
  match x with
  | OutStr s => latin1_encode s
  | OutBytes _ => Raise AttributeError
  end.

(** ** Sample collaborators and data *)

(** A chat endpoint that always answers, a parser that reads every
    reply as the dictionary [sample_items], and fixed choices elsewhere. *)
Definition sample_items : list (pystr * json) :=
  [(lit "t0", JObj [(lit "gist", JStr (lit "A short gist."))])].

Definition sample_chat (history : list event) (model : pystr) (msgs : list message)
  : result pystr := Ok (lit "{}").

Definition sample_loads (reply : pystr) : result json := Ok (JObj sample_items).

Definition sample_dumps (payload : json) : pystr := lit "{}".

Definition sample_random (history : list event) (n : nat) : nat := 0%nat.

Definition sample_format (v : json) : pystr := lit "None".

Definition sample_title (s : pystr) : pystr := s.

Definition sample_thread (k : nat) : Thread.t :=
  {| Thread.id := lit "t" ++ decimal (Z.of_nat k);
     Thread.title := lit "Thread " ++ decimal (Z.of_nat k);
     Thread.body := lit "Body text.";
     Thread.comments := lit "First comment. Second comment.";
     Thread.url := lit "https://example.org/" ++ decimal (Z.of_nat k);
     Thread.created := lit "2025-01-01";
     Thread.summary := None |}.

(** Twelve fetched threads, not yet summarised. *)
Definition sample_world : world :=
  {| heap := map sample_thread (seq 0 12); trace := [] |}.

Definition sample_threads : list nat := seq 0 12.

(** Two threads that carry a summary. *)
Definition sample_summarised : world :=
  {| heap := [ Thread.set_summary (JObj [(lit "gist", JStr (lit "A short gist."))])
                 (sample_thread 0);
               Thread.set_summary (JObj []) (sample_thread 1) ];
     trace := [] |}.

(** A document is the list of the texts laid out, latest first.  The
    sample layout call refuses a character outside Latin-1, and has room
    for [sample_room] characters in one call.  The sample transliteration
    returns ASCII, as [unidecode] does: an ASCII character stays, a
    character of [sample_table] is replaced by its entry, and any other
    character is left out. *)
Definition sample_room : nat := 64.

Definition sample_table : list (N * pystr) :=
  [ (160, lit " "); (233, lit "e"); (8211, lit "-"); (8212, lit "--");
    (8216, lit "'"); (8217, lit "'"); (8220, [34]); (8221, [34]);
    (8230, lit "...") ]%N.

Definition sample_transliterate (c : N) : pystr :=
  if (c <? 128)%N then [c]
  else match List.find (fun kv => (fst kv =? c)%N) sample_table with
       | Some kv => snd kv
       | None => []
       end.

Definition sample_set_font (family style : pystr) (size : Z) : Comp (list pystr) unit :=
  ret tt.

Definition sample_multi_cell (hooks : page_hooks (list pystr)) (w h : Z) (text : pystr)
  : Comp (list pystr) unit :=
  fun doc =>
    if negb (forallb (fun c => c <? 256)%N text) then (Raise (External 1), doc)
    else if (length text <=? sample_room)%nat then (Ok tt, text :: doc)
    else (Raise (External 4), doc).

Definition sample_cell (w h : Z) (text : pystr) (kwargs : list (string * json))
  : Comp (list pystr) unit :=
  fun doc => (Ok tt, text :: doc).

Definition sample_set_y (y : Z) : Comp (list pystr) unit := ret tt.

Definition sample_page_no (doc : list pystr) : Z := 1.

Definition sample_unidecode (text : pystr) : result pystr :=
  Ok (concat (map sample_transliterate text)).

Definition sample_new : list pystr := [].


Definition sample_add_page (hooks : page_hooks (list pystr)) : Comp (list pystr) unit :=
  header hooks.

Definition sample_set_auto_page_break (auto : bool) (margin : Z) : Comp (list pystr) unit :=
  ret tt.

Definition sample_output (hooks : page_hooks (list pystr)) : Comp (list pystr) (list Byte.byte) :=
  bind (footer hooks) (fun _ => ret []).

Definition sample_output_S (hooks : page_hooks (list pystr)) : Comp (list pystr) output_value :=
  bind (footer hooks) (fun _ => ret (OutBytes [])).

Definition sample_encode (s : pystr) : list Byte.byte := omap Byte.of_N s.

(** A parser that rejects every reply. *)
Definition sample_loads_broken (reply : pystr) : result json := Raise (External 2).

(** Two posts; the comment tree of [sample_post_broken] does not expand. *)
Definition sample_post (k : nat) : submission :=
  {| post_id := lit "p" ++ decimal (Z.of_nat k);
     post_title := lit "Post " ++ decimal (Z.of_nat k);
     post_selftext := [];
     post_url := lit "https://example.org/p";
     post_created_utc := 1735689600;
     post_comments := Ok [lit "First."; lit "Second."] |}.

Definition sample_post_broken : submission :=
  {| post_id := lit "px"; post_title := lit "Post x"; post_selftext := lit "text";
     post_url := lit "https://example.org/px"; post_created_utc := 1735689600;
     post_comments := Raise (External 3) |}.

Definition sample_reddit (history : list event) (sub : pystr) (limit : Z)
  : list submission * option exn := ([sample_post 0; sample_post 1], None).

Definition sample_reddit_broken (history : list event) (sub : pystr) (limit : Z)
  : list submission * option exn :=
  ([sample_post 0; sample_post_broken; sample_post 1], None).

Definition sample_utc_date (timestamp : Q) : pystr := lit "2025-01-01".

(** * The application *)

Section App.

(** ** Collaborators *)

(** [openai.chat.completions.create(model=..., messages=...)] followed
    by [.choices[0].message.content]: the text of the reply, or the
    exception raised on the way.  The reply may depend on everything
    that happened before. *)
Variable chat_completions_create : list event -> pystr -> list message -> result pystr.

(** [json.loads] and [json.dumps]. *)
Variable json_loads : pystr -> result json.
Variable json_dumps : json -> pystr.

(** The draw behind [random.choice]. *)
Variable random_below : list event -> nat -> nat.

(** [str(v)] for a value that is not a string, as an f-string formats it. *)
Variable format_value : json -> pystr.

(** [str.title]. *)
Variable str_title : pystr -> pystr.

(** [reddit.subreddit(sub).new(limit=limit)]: the posts the listing
    yields and the exception, if any, that ends the iteration. *)
Variable reddit_new : list event -> pystr -> Z -> list submission * option exn.

(** [datetime.fromtimestamp(ts, tz=timezone.utc).strftime("%Y-%m-%d")]. *)
Variable utc_date : Q -> pystr.

(** The bytes that the download widget serves for a string. *)
Variable str_encode : pystr -> list Byte.byte.

(** The FPDF document object and the methods the script calls.  The
    methods that lay out pages call back the [header] and [footer] of
    the subclass. *)
Variable fpdf : Type.

Variable FPDF_new : fpdf.
Variable FPDF_set_font : pystr -> pystr -> Z -> Comp fpdf unit.
Variable FPDF_set_y : Z -> Comp fpdf unit.
Variable FPDF_page_no : fpdf -> Z.
Variable FPDF_cell : Z -> Z -> pystr -> list (string * json) -> Comp fpdf unit.
Variable FPDF_multi_cell : page_hooks fpdf -> Z -> Z -> pystr -> Comp fpdf unit.
Variable FPDF_add_page : page_hooks fpdf -> Comp fpdf unit.
Variable FPDF_set_auto_page_break : bool -> Z -> Comp fpdf unit.
Variable FPDF_output : page_hooks fpdf -> Comp fpdf (list Byte.byte).
Variable FPDF_output_S : page_hooks fpdf -> Comp fpdf output_value.
Variable unidecode : pystr -> result pystr.

(** ** [fetch_threads], lines 78 to 92 *)

(** [x or ""] for a string. *)
Definition or_empty (x : pystr) : pystr :=
  if truthy x then x else [].

Definition fetch_post (threads : list loc) (post : submission) : Comp world (list loc) :=
  bodies <- lift (post_comments post) ;;
  let comments := join (lit " ") bodies in
  l <- alloc {| Thread.id := post_id post;
                Thread.title := post_title post;
                Thread.body := or_empty (post_selftext post);
                Thread.comments := comments;
                Thread.url := post_url post;
                Thread.created := utc_date (post_created_utc post);
                Thread.summary := None |} ;;
  emit TimerCb ;;
  ret (threads ++ [l]).

Definition fetch_threads (sub : pystr) (limit : Z) : Comp world (list loc) :=
  emit (RedditNew sub limit) ;;
  tr <- get_trace ;;
  let listing := reddit_new tr sub limit in
  threads <- for_fold fetch_post [] (fst listing) ;;
  match snd listing with
  | Some e => raise e
  | None => ret threads
  end.

(** ** [summarise_threads], lines 94 to 125 *)

(** The text sent for one thread, line 100. *)
Definition payload_text (t : Thread.t) : pystr :=
  Thread.title t ++ nl ++ nl ++ upto 4000 (Thread.body t) ++ nl ++ nl
  ++ lit "Comments:" ++ nl ++ upto 6000 (Thread.comments t).

(** The dictionary comprehension of lines 99 to 102. *)
Definition build_payload (ts : list Thread.t) : list (pystr * json) :=
  fold_left (fun d t => dict_set (Thread.id t) (JStr (payload_text t)) d) ts [].

Definition summariser_prompt : pystr :=
  lit "You are a research summarizer. Infer what redditors are saying in the thread. Summarize so that it would be easy for a mid career professional with AI/ML background working at big tech. For each Reddit thread JSON {id:text} return JSON with keys "
  ++ lit "gist (50 words), insight1, insight2, sentiment (positive/neutral/negative).".

(** [random.choice(seq)]. *)
Definition random_choice (seq : list loc) : Comp world loc :=
  fun w =>
    match seq !! (random_below (trace w) (length seq) `mod` length seq)%nat with
    | Some l => (Ok l, w)
    | None => (Raise IndexError, w)
    end.

(** One call to the chat-completion endpoint: the call is logged, then
    the collaborator answers or raises. *)
Definition create_chat_completion (model : pystr) (msgs : list message) : Comp world pystr :=
  fun w =>
    (chat_completions_create (trace w) model msgs,
     {| heap := heap w; trace := trace w ++ [ChatCompletion model msgs] |}).

(** Lines 99 to 117: the payload, the two status lines and the call. *)
Definition request_summaries (threads chunk : list loc) (model : pystr) : Comp world pystr :=
  ts <- map_comp deref chunk ;;
  let payload := build_payload ts in
  first <- lift (match chunk with l :: _ => Ok l | [] => Raise IndexError end) ;;
  t0 <- deref first ;;
  emit (StatusMarkdown (lit "**Summarising:** " ++ upto 80 (Thread.title t0) ++ [8230%N])) ;;
  sample <- random_choice threads ;;
  sample_thread <- deref sample ;;
  emit (SampleMarkdown (lit "*Random thread:* **" ++ upto 90 (Thread.title sample_thread) ++ lit "**")) ;;
  let msgs := [ {| role := lit "system"; content := summariser_prompt |};
                {| role := lit "user"; content := json_dumps (JObj payload) |} ] in
  create_chat_completion model msgs.

(** Line 120: [t["summary"] = summaries.get(t["id"], {})]. *)
Definition attach_summary (summaries : json) (l : loc) : Comp world unit :=
  t <- deref l ;;
  v <- lift (get_method summaries (Thread.id t) (JObj [])) ;;
  assign_summary l v.

(** Lines 118 to 120. *)
Definition attach_summaries (reply : pystr) (chunk : list loc) : Comp world unit :=
  summaries <- lift (json_loads reply) ;;
  for_each (attach_summary summaries) chunk.

(** Lines 121 to 124. *)
Definition report_progress (done total : Z) : Comp world unit :=
  fraction <- lift (py_truediv done total) ;;
  emit (ProgressBar fraction) ;;
  emit TimerCb ;;
  emit (Sleep (1 # 2)).

(** The body of the loop for index [i]; [done] is carried from one
    iteration to the next. *)
Definition summarise_batch (threads : list loc) (total : Z) (model : pystr) (batch : Z)
    (done : Z) (i : Z) : Comp world Z :=
  let chunk := py_slice threads i (i + batch) in
  reply <- request_summaries threads chunk model ;;
  attach_summaries reply chunk ;;
  let done' := done + len chunk in
  report_progress done' total ;;
  ret done'.

Definition summarise_threads (threads : list loc) (model : pystr) (batch : Z) : Comp world unit :=
  let total := len threads in
  indices <- lift (py_range 0 total batch) ;;
  for_fold (summarise_batch threads total model batch) 0 indices ;;
  emit (StatusMarkdown (lit "**Summarising complete!**")).

(** ** [generate_report], lines 127 to 150 *)

(** How an f-string renders a value. *)
Definition format_field (v : json) : pystr :=
  match v with
  | JStr s => s
  | _ => format_value v
  end.

(** One item of the generator of line 129. *)
Definition corpus_entry (t : Thread.t) : result pystr :=
  match Thread.summary t with
  | None => Raise (KeyError "summary")
  | Some s =>
      match get_method s (lit "gist") (JStr []) with
      | Ok gist =>
          Ok (Thread.title t ++ [32; 8211; 32]%N ++ format_field gist
              ++ lit " [URL](" ++ Thread.url t ++ lit ")")
      | Raise e => Raise e
      end
  end.

Fixpoint corpus_entries (ts : list Thread.t) : result (list pystr) :=
  match ts with
  | [] => Ok []
  | t :: ts' =>
      match corpus_entry t with
      | Ok p =>
          match corpus_entries ts' with
          | Ok ps => Ok (p :: ps)
          | Raise e => Raise e
          end
      | Raise e => Raise e
      end
  end.

(** The joined string of lines 128 and 129, before it is sliced. *)
Definition joined_corpus (ts : list Thread.t) : result pystr :=
  match corpus_entries ts with
  | Ok ps => Ok (join (nl ++ nl) ps)
  | Raise e => Raise e
  end.

(** [corpus], lines 128 to 130. *)
Definition build_corpus (ts : list Thread.t) : result pystr :=
  match joined_corpus ts with
  | Ok s => Ok (upto 15000 s)
  | Raise e => Raise e
  end.

(** [q_block], line 132. *)
Definition q_block (questions : list pystr) : pystr :=
  join nl (imap (fun i q => lit "Q" ++ decimal (Z.of_nat i + 1) ++ lit ". " ++ q) questions).

Definition analyst_prompt (genre : pystr) : pystr :=
  lit "You are an analyst assisting a mid career professional, an AI engineer currently an Engineering manager, honing their craft; advancing their career. "
  ++ lit "**" ++ str_title genre ++ lit "** genre. You have mined Reddit audience discussions. "
  ++ lit "First, give a one" ++ [8209%N] ++ lit "paragraph snapshot of overall audience sentiment for this subreddit. "
  ++ lit "Then, answer each research question in its own subsection (" ++ [8804%N] ++ lit "2 paragraphs each), call out any FIRST principles that the reader should know "
  ++ lit "adding citations in [Title](URL) form right after every key evidence point. "
  ++ lit "Finish with a bold **list of ACTIONABLE INSIGHTS**: 3 points for surviving in the AI era, especially as a mid-career Engineering Manager in Big tech industry.".

(** The messages of the synthesis call, lines 128 to 147. *)
Definition synthesis_messages (genre : pystr) (threads : list loc) (questions : list pystr)
  : Comp world (list message) :=
  ts <- map_comp deref threads ;;
  corpus <- lift (build_corpus ts) ;;
  ret [ {| role := lit "system"; content := analyst_prompt genre |};
        {| role := lit "assistant";
           content := lit "CORPUS (" ++ decimal (len threads) ++ lit " threads):" ++ nl ++ corpus |};
        {| role := lit "user"; content := q_block questions |} ].

Definition generate_report (genre : pystr) (threads : list loc) (questions : list pystr)
  : Comp world pystr :=
  msgs <- synthesis_messages genre threads questions ;;
  report <- create_chat_completion (lit "o3") msgs ;;
  emit TimerCb ;;
  ret report.

(** ** The download section, lines 201 to 260 *)

(** The text export, lines 205 to 207: what is handed to the download
    widget. *)
Definition text_export (report_md : pystr) : download_data :=
  let txt_buf := StringIO.write report_md StringIO.new in
  DataStr (StringIO.getvalue txt_buf).

(** The bytes a download serves. *)
Definition served_bytes (d : download_data) : list Byte.byte :=
  match d with
  | DataStr s => str_encode s
  | DataBytes b => b
  end.

(** The first [PDF] class, lines 211 to 225. *)
Definition PDF_header : Comp fpdf unit :=
  FPDF_set_font (lit "Arial") (lit "B") 12 ;;
  FPDF_cell 0 10 (lit "Reddit Research Report")
    [("ln"%string, JBool true); ("align"%string, JStr (lit "C"))].

Definition PDF_footer : Comp fpdf unit :=
  FPDF_set_y (-15) ;;
  FPDF_set_font (lit "Arial") (lit "I") 8 ;;
  fun self =>
    FPDF_cell 0 10 (lit "Page " ++ decimal (FPDF_page_no self))
      [("align"%string, JStr (lit "C"))] self.

Definition PDF_hooks : page_hooks fpdf :=
  {| header := PDF_header; footer := PDF_footer |}.

(** The body of the [try] of line 223. *)
Definition render_body (text : pystr) : Comp fpdf unit :=
  ascii_text <- lift (unidecode text) ;;
  FPDF_multi_cell PDF_hooks 0 7 ascii_text.

(** [PDF.chapter_body], lines 220 to 225. *)
Definition chapter_body (text : pystr) : Comp fpdf unit :=
  FPDF_set_font (lit "Arial") [] 11 ;;
  try_except (render_body text)
             (fun _ => FPDF_multi_cell PDF_hooks 0 7 (lit "Exception")).

(** Lines 228 to 232 on the new document. *)
Definition export_pdf (report_md : pystr) : Comp fpdf (list Byte.byte) :=
  FPDF_add_page PDF_hooks ;;
  chapter_body report_md ;;
  FPDF_output PDF_hooks.

(** The second [PDF] class, lines 237 to 258. *)
Definition PDF2_header : Comp fpdf unit :=
  FPDF_set_font (lit "Helvetica") (lit "B") 12 ;;
  FPDF_cell 0 10 (lit "Reddit Research Report")
    [("new_x"%string, JStr (lit "LMARGIN")); ("new_y"%string, JStr (lit "NEXT"));
     ("align"%string, JStr (lit "C"))].

Definition PDF2_footer : Comp fpdf unit :=
  FPDF_set_y (-15) ;;
  FPDF_set_font (lit "Helvetica") (lit "I") 8 ;;
  fun self =>
    FPDF_cell 0 10 (lit "Page " ++ decimal (FPDF_page_no self))
      [("align"%string, JStr (lit "C"))] self.

Definition PDF2_hooks : page_hooks fpdf :=
  {| header := PDF2_header; footer := PDF2_footer |}.

(** The body of [build_pdf], lines 252 to 258. *)
Definition build_pdf (text : pystr) : Comp fpdf (list Byte.byte) :=
  FPDF_set_auto_page_break true 15 ;;
  FPDF_add_page PDF2_hooks ;;
  FPDF_set_font (lit "Helvetica") [] 11 ;;
  ascii_text <- lift (unidecode text) ;;
  FPDF_multi_cell PDF2_hooks 0 7 ascii_text ;;
  out <- FPDF_output_S PDF2_hooks ;;
  lift (encode_method out).

(** [pdf = PDF()] followed by calls on [pdf]. *)
Definition with_new_pdf {A} (c : Comp fpdf A) : Comp world A :=
  fun w => (fst (c FPDF_new), w).

Definition pdf_label : pystr := [128216%N] ++ lit " Download as .pdf".

(** The section as the script runs it; [ns] is the module namespace on
    entry. *)
Definition download_section (report_md : pystr) (ns : list string) : Comp world unit :=
  emit (StMarkdown (lit "## " ++ [128229%N] ++ lit " Download Report")) ;;
  let ns := bind_name "txt_buf" ns in
  lift (load_name "txt_buf" ns) ;;
  emit (StDownloadButton ([128196%N] ++ lit " Download as .txt") (text_export report_md)
          (lit "reddit_research_report.txt") (lit "text/plain")) ;;
  let ns := exec_class PDF_class_1 (bind_name "unidecode" ns) in
  lift (load_name "PDF" ns) ;;
  pdf_output <- with_new_pdf (export_pdf report_md) ;;
  let ns := bind_name "pdf_output" (bind_name "pdf" ns) in
  emit (StDownloadButton pdf_label (DataBytes pdf_output)
          (lit "reddit_research_report.pdf") (lit "application/pdf")) ;;
  let ns := exec_class PDF_class_2 (bind_name "unidecode" (bind_name "FPDF" ns)) in
  lift (load_name "build_pdf" ns) ;;
  pdf_bytes <- with_new_pdf (build_pdf report_md) ;;
  emit (StDownloadButton pdf_label (DataBytes pdf_bytes)
          (lit "reddit_research_report.pdf") (lit "application/pdf")).

(** ** The run, lines 174 to 262 *)

(** One item of the list shown by [st.json], line 193. *)
Definition preview (t : Thread.t) : result json :=
  match Thread.summary t with
  | None => Raise (KeyError "summary")
  | Some (JObj items) =>
      Ok (JObj (dict_set (lit "url") (JStr (Thread.url t))
                  (fold_left (fun d kv => dict_set (fst kv) (snd kv) d) items
                     [(lit "title", JStr (Thread.title t))])))
  | Some _ => Raise TypeError
  end.

(** [st.error(msg); st.stop()]. *)
Definition stop_with (msg : pystr) : Comp world unit :=
  emit (StError msg) ;; raise StopScript.

(** The two guards, lines 175 to 180. *)
Definition validate (subreddit : pystr) (questions : list pystr) : Comp world unit :=
  (if truthy subreddit then ret tt else stop_with (lit "Please specify a subreddit.")) ;;
  (match questions with
   | [] => stop_with (lit "Enter at least one research question.")
   | _ => ret tt
   end).

(** The stages, lines 182 to 262. *)
Definition pipeline (genre_input subreddit : pystr) (n_posts : Z) (questions : list pystr)
  : Comp world unit :=
  threads <- fetch_threads subreddit n_posts ;;
  emit (StProgress 0) ;;
  summarise_threads threads (lit "o3") 6 ;;
  emit (StSuccess (lit "Summarised " ++ decimal (len threads) ++ lit " threads from r/"
                   ++ subreddit ++ lit ".")) ;;
  ts <- map_comp deref threads ;;
  items <- map_comp (fun t => lift (preview t)) ts ;;
  emit (StJson items) ;;
  report_md <- generate_report genre_input threads questions ;;
  emit (StMarkdown (lit "## " ++ [128202%N] ++ lit " Audience" ++ [8209%N] ++ lit "Driven Report")) ;;
  emit (StMarkdown report_md) ;;
  download_section report_md names_before_download ;;
  emit TimerCb.

(** What a click on the run button does, with the question box holding
    [qs_text]. *)
Definition run_research (genre_input subreddit : pystr) (n_posts : Z) (qs_text : pystr)
  : Comp world unit :=
  let questions := questions qs_text in
  validate subreddit questions ;;
  pipeline genre_input subreddit n_posts questions.

(** ** Vocabulary of the properties *)

(** A relation between the state before and after that every step of a
    computation keeps, whatever the outcome. *)
Record preorder_on {S : Type} (R : S -> S -> Prop) : Prop := {
  pre_refl : forall s, R s s;
  pre_trans : forall s1 s2 s3, R s1 s2 -> R s2 s3 -> R s1 s3
}.

Definition respects {S A} (R : S -> S -> Prop) (m : Comp S A) : Prop :=
  forall s, R s (snd (m s)).

(** What a successful step logs: the heap it leaves and the events it
    adds. *)
Definition logs (w w' : world) (d : list event) : Prop :=
  heap w' = heap w /\ trace w' = trace w ++ d.

(** The fetched keys of every thread of the store are kept. *)
Definition same_fetched (w w' : world) : Prop :=
  forall l t, heap w !! l = Some t ->
    exists t', heap w' !! l = Some t' /\ Thread.fetched t' = Thread.fetched t.

(** The value that line 120 assigns to a thread when the reply is the
    dictionary with items [items]. *)
Definition summary_for (items : list (pystr * json)) (t : Thread.t) : json :=
  match dict_lookup (Thread.id t) items with
  | Some v => v
  | None => JObj []
  end.

(** Every language-model call of a run is either a summariser call (two
    messages) or a synthesis call whose user message is the block of the
    questions [qs]. *)
Definition call_shape (qs : list pystr) (e : event) : Prop :=
  match e with
  | ChatCompletion _ msgs =>
      length msgs = 2%nat
      \/ exists sys corpus,
           msgs = [sys; corpus; {| role := lit "user"; content := q_block qs |}]
  | _ => True
  end.

(** A step that only adds events satisfying [P] to the log. *)
Definition only_logs (P : event -> Prop) (w w' : world) : Prop :=
  exists d, trace w' = trace w ++ d /\ Forall P d.




(** A step that logs something, assigns only to the references of [L],
    leaves every other thread as it was, and leaves a summary on every
    thread it assigned or that had one. *)
Definition assigns_within (L : list nat) (w w' : world) : Prop :=
  (exists d, trace w' = trace w ++ d
             /\ forall l, l ∈ assigned d ->
                  l ∈ L /\ exists t', heap w' !! l = Some t' /\ is_Some (Thread.summary t'))
  /\ (forall l, l ∉ L -> heap w' !! l = heap w !! l)
  /\ (forall l t, heap w !! l = Some t -> is_Some (Thread.summary t) ->
        exists t', heap w' !! l = Some t' /\ is_Some (Thread.summary t')).

(** A string without line boundary. *)
Definition one_line (s : pystr) : Prop :=
  Forall (fun c => is_linebreak c = false) s.

(** A string that is not empty and neither starts nor ends with white
    space. *)
Definition trimmed (s : pystr) : Prop :=
  s <> []
  /\ (forall c, head s = Some c -> is_space c = false)
  /\ (forall c, last s = Some c -> is_space c = false).

(** A string of white space only. *)
Definition blank (s : pystr) : Prop := Forall (fun c => is_space c = true) s.

(** A line that holds a character other than white space. *)
Definition non_blank (line : pystr) : bool :=
  existsb (fun c => negb (is_space c)) line.

(** [q] is [line] without the white space at its two ends. *)
Definition stripped_of (line q : pystr) : Prop :=
  trimmed q
  /\ exists pre post, line = pre ++ q ++ post /\ blank pre /\ blank post.

(** [line] is a line of [text]: a piece without line boundary that
    starts where the text starts or just after a line boundary, and ends
    where the text ends or just before a line boundary. *)
Definition line_of (text line : pystr) : Prop :=
  one_line line
  /\ exists before after,
       text = before ++ line ++ after
       /\ (forall c, last before = Some c -> is_linebreak c = true)
       /\ (forall c, head after = Some c -> is_linebreak c = true).

(** The lines of [q_block]: [f"Q{i+1}. {q}"]. *)
Definition numbered (questions : list pystr) : list pystr :=
  imap (fun i q => lit "Q" ++ decimal (Z.of_nat i + 1) ++ lit ". " ++ q) questions.

(** The dictionary that [fetch_threads] builds for a post whose comment
    bodies are [bodies] (lines 83 to 90). *)
Definition fetched_thread (post : submission) (bodies : list pystr) : Thread.t :=
  {| Thread.id := post_id post;
     Thread.title := post_title post;
     Thread.body := or_empty (post_selftext post);
     Thread.comments := join (lit " ") bodies;
     Thread.url := post_url post;
     Thread.created := utc_date (post_created_utc post);
     Thread.summary := None |}.

(** The comment bodies of a post, when the expansion went through. *)
Definition comment_bodies (post : submission) : list pystr :=
  match post_comments post with
  | Ok bodies => bodies
  | Raise _ => []
  end.

(** A computation that ends with an exception, whatever the state. *)
Definition never_returns {S A} (m : Comp S A) : Prop :=
  forall s, exists e, fst (m s) = Raise e.

(** ** The password gate, lines 22 to 33 *)

(** The two passwords of line 28. *)
Definition accepted_passwords : list pystr :=
  [lit "raghavan"; lit "Abiriscool123!"].

(** How a run of the script leaves the gate. *)
Inductive gate_outcome :=
| GatePassed
| GateRerun
| GateStopped (error : option pystr).

(** One run of the script through the gate.  [session] is
    [st.session_state.get("authenticated")] on entry ([None]: no such
    key), [pwd] the content of the password box and [submit] whether the
    button was clicked; the result holds the flag as the run leaves it. *)
Definition password_gate (session : option bool) (pwd : pystr) (submit : bool)
  : bool * gate_outcome :=
  let authenticated := match session with Some b => b | None => false end in
  if authenticated then (authenticated, GatePassed)
  else if submit then
    if bool_decide (pwd ∈ accepted_passwords) then (true, GateRerun)
    else (authenticated, GateStopped (Some (lit "Incorrect password.")))
  else (authenticated, GateStopped None).

(** Successive runs in one browser session: the flag persists. *)
Fixpoint gate_runs (session : option bool) (inputs : list (pystr * bool))
  : bool * list gate_outcome :=
  match inputs with
  | [] => (match session with Some b => b | None => false end, [])
  | (pwd, submit) :: rest =>
      let r := password_gate session pwd submit in
      let rs := gate_runs (Some (fst r)) rest in
      (fst rs, snd r :: snd rs)
  end.

(** ** The elapsed-time display, lines 157 to 160 *)

(** [int(x)]: truncation towards zero. *)
Definition py_int (x : Q) : Z :=
  if Qle_bool 0 x then Qfloor x else Qceiling x.

(** [f"{n:02d}"]: the decimal digits, padded with zeros to a width of
    two (the sign counts in the width). *)
Definition format_02d (n : Z) : pystr :=
  if (0 <=? n) && (n <? 10) then lit "0" ++ decimal n else decimal n.

(** The text that [tick] writes for an elapsed time in seconds. *)
Definition tick_text (elapsed : Q) : pystr :=
  let mins := py_int elapsed / 60 in
  let secs := py_int elapsed mod 60 in
  [9201; 65039]%N ++ lit " " ++ format_02d mins ++ lit ":" ++ format_02d secs.

(** The two decimal digits of a number below one hundred. *)
Definition two_digits (n : Z) : pystr :=
  [Z.to_N (48 + n / 10); Z.to_N (48 + n mod 10)].
(** ** Batching: auxiliary facts *)

Lemma py_slice_nonneg {A} (l : list A) (i d : Z) :
  0 <= i -> 0 <= d ->
  py_slice l i (i + d) = take (Z.to_nat d) (drop (Z.to_nat i) l).
Proof.
  intros Hi Hd. unfold py_slice, slice_index, len.
  destruct (Z.ltb_spec i 0) as [?|_]; [lia|].
  destruct (Z.ltb_spec (i + d) 0) as [?|_]; [lia|].
  destruct (Z.le_gt_cases (Z.of_nat (length l)) i) as [Hge|Hlt].
  - rewrite (drop_ge l (Z.to_nat i)) by lia.
    rewrite drop_ge by lia. by rewrite !take_nil.
  - rewrite (Z.min_l i) by lia.
    destruct (Z.le_gt_cases (i + d) (Z.of_nat (length l))) as [Hle|Hgt].
    + rewrite Z.min_l by lia. f_equal. lia.
    + rewrite Z.min_r by lia.
      rewrite !take_ge; [done| |]; rewrite length_drop; lia.
Qed.

Lemma range_length_pos_step (n b : Z) :
  0 <= n -> 1 <= b ->
  0 <= range_length 0 n b /\ n <= range_length 0 n b * b
  /\ (range_length 0 n b - 1) * b < n \/ n = 0 /\ range_length 0 n b = 0.
Proof.
  intros Hn Hb. unfold range_length.
  destruct (Z.ltb_spec 0 b) as [_|?]; [|lia].
  destruct (Z.ltb_spec 0 n) as [Hpos|Hz]; [left|right; lia].
  replace (n - 0 - 1) with (n - 1) by lia.
  pose proof (Z.div_mod (n - 1) b ltac:(lia)) as Hdm.
  pose proof (Z.mod_pos_bound (n - 1) b ltac:(lia)) as Hmod.
  pose proof (Z.div_pos (n - 1) b ltac:(lia) ltac:(lia)) as Hq.
  nia.
Qed.

(** The first [n] batches of size [b] make up the first [n * b] items. *)
Lemma concat_slices_take {A} (l : list A) (b : nat) (n : nat) :
  concat (map (fun k => take b (drop (k * b) l)) (seq 0 n)) = take (n * b) l.
Proof.
  induction n as [|n IH]; [by rewrite take_0|].
  rewrite seq_S, map_app, concat_app, IH. simpl.
  rewrite app_nil_r, take_take_drop. f_equal. lia.
Qed.

Lemma batches_pos_step {A} (threads : list A) (b : Z) :
  1 <= b ->
  batches threads b =
    Ok (map (fun k => take (Z.to_nat b) (drop (k * Z.to_nat b) threads))
            (seq 0 (Z.to_nat (range_length 0 (len threads) b)))).
Proof.
  intros Hb. unfold batches, py_range.
  destruct (Z.eqb_spec b 0) as [?|_]; [lia|].
  f_equal. rewrite map_map. apply map_ext. intros k.
  rewrite py_slice_nonneg by lia. do 2 f_equal. lia.
Qed.

Lemma concat_all_slices {A} (threads : list A) (b : Z) :
  1 <= b ->
  concat (map (fun k => take (Z.to_nat b) (drop (k * Z.to_nat b) threads))
              (seq 0 (Z.to_nat (range_length 0 (len threads) b)))) = threads.
Proof.
  intros Hb. rewrite concat_slices_take. apply take_ge.
  pose proof (range_length_pos_step (len threads) b) as H.
  unfold len in *. destruct H as [H|H]; [lia|done|nia|].
  destruct H as [H0 _]. destruct threads; simpl in *; lia.
Qed.

(** ** Batching: the partition property *)

(** C5: for every thread list and every batch size [b >= 1], the slices
    [threads[i:i+b]] for [i in range(0, len(threads), b)] exist (the
    range is well formed) and, concatenated in order, give back the
    original list: same elements, same order, same count. *)
Theorem batches_concat {A} (threads : list A) (b : Z) :
  1 <= b ->
  exists bs, batches threads b = Ok bs
             /\ concat bs = threads
             /\ length (concat bs) = length threads.
Proof.
  intros Hb. rewrite batches_pos_step by done. eexists. split; [done|].
  assert (Hc : concat (map (fun k => take (Z.to_nat b) (drop (k * Z.to_nat b) threads))
                 (seq 0 (Z.to_nat (range_length 0 (len threads) b)))) = threads).
  { rewrite concat_slices_take. apply take_ge.
    pose proof (range_length_pos_step (len threads) b) as H.
    unfold len in *. destruct H as [H|H]; [lia|done|nia|].
    destruct H as [H0 _]. destruct threads; simpl in *; lia. }
  by rewrite Hc.
Qed.



(** ** Reasoning about computations *)

Lemma bind_ok {S A B} (m : Comp S A) (k : A -> Comp S B) s b s'' :
  bind m k s = (Ok b, s'') ->
  exists a s', m s = (Ok a, s') /\ k a s' = (Ok b, s'').
Proof.
  unfold bind. destruct (m s) as [[a|e] s'] eqn:Hm; [eauto|discriminate].
Qed.

Lemma bind_run {S A B} (m : Comp S A) (k : A -> Comp S B) s a s' :
  m s = (Ok a, s') -> bind m k s = k a s'.
Proof. unfold bind. by intros ->. Qed.

Lemma lift_ok {S A} (r : result A) (s s' : S) a :
  lift r s = (Ok a, s') -> r = Ok a /\ s' = s.
Proof. unfold lift. by intros [= -> ->]. Qed.

Lemma ret_ok {S A} (x a : A) (s s' : S) :
  ret x s = (Ok a, s') -> a = x /\ s' = s.
Proof. unfold ret. by intros [= -> ->]. Qed.

(** Splitting a successful run along its [bind]s. *)
Tactic Notation "comp_inv" hyp(H) "as" simple_intropattern(a) simple_intropattern(s) ident(H1) :=
  apply bind_ok in H; destruct H as (a & s & H1 & H).

Lemma respects_ret {S A} (R : S -> S -> Prop) (a : A) :
  preorder_on R -> respects R (ret a).
Proof. intros HR s. apply HR. Qed.

Lemma respects_raise {S A} (R : S -> S -> Prop) (e : exn) :
  preorder_on R -> respects R (@raise S A e).
Proof. intros HR s. apply HR. Qed.

Lemma respects_lift {S A} (R : S -> S -> Prop) (r : result A) :
  preorder_on R -> respects R (@lift S A r).
Proof. intros HR s. apply HR. Qed.

Lemma respects_bind {S A B} (R : S -> S -> Prop) (m : Comp S A) (k : A -> Comp S B) :
  preorder_on R -> respects R m -> (forall a, respects R (k a)) -> respects R (bind m k).
Proof.
  intros HR Hm Hk s. unfold bind. specialize (Hm s).
  destruct (m s) as [[a|e] s']; simpl in *; [|done].
  eapply (pre_trans R HR); [exact Hm|apply Hk].
Qed.

Lemma respects_try {S A} (R : S -> S -> Prop) (m : Comp S A) (h : exn -> Comp S A) :
  preorder_on R -> respects R m -> (forall e, respects R (h e)) ->
  respects R (try_except m h).
Proof.
  intros HR Hm Hh s. unfold try_except. specialize (Hm s).
  destruct (m s) as [[a|e] s']; simpl in *; [done|].
  eapply (pre_trans R HR); [exact Hm|apply Hh].
Qed.

Lemma respects_for_each {S A} (R : S -> S -> Prop) (body : A -> Comp S unit) (l : list A) :
  preorder_on R -> (forall x, respects R (body x)) -> respects R (for_each body l).
Proof.
  intros HR Hb. induction l as [|x l IH]; simpl.
  - by apply respects_ret.
  - apply respects_bind; [done|apply Hb|intros _; exact IH].
Qed.

Lemma respects_for_fold {S A B} (R : S -> S -> Prop) (body : B -> A -> Comp S B)
    (l : list A) (acc : B) :
  preorder_on R -> (forall b x, respects R (body b x)) -> respects R (for_fold body acc l).
Proof.
  intros HR Hb. revert acc. induction l as [|x l IH]; intros acc; simpl.
  - by apply respects_ret.
  - apply respects_bind; [done|apply Hb|intros b; apply IH].
Qed.

Lemma respects_map_comp {S A B} (R : S -> S -> Prop) (f : A -> Comp S B) (l : list A) :
  preorder_on R -> (forall x, respects R (f x)) -> respects R (map_comp f l).
Proof.
  intros HR Hf. induction l as [|x l IH]; simpl.
  - by apply respects_ret.
  - apply respects_bind; [done|apply Hf|intros y].
    apply respects_bind; [done|exact IH|intros ys; by apply respects_ret].
Qed.

(** Structural rules first, then whatever is known of the steps. *)
Ltac respects_steps HR :=
  repeat first
    [ apply (respects_ret _ _ HR)
    | apply (respects_raise _ _ HR)
    | apply (respects_lift _ _ HR)
    | apply (respects_bind _ _ _ HR)
    | apply (respects_try _ _ _ HR)
    | apply (respects_for_each _ _ _ HR)
    | apply (respects_for_fold _ _ _ _ HR)
    | apply (respects_map_comp _ _ _ HR)
    | progress intros
    | solve [eauto] ].

(** ** Observations on logs *)

Lemma model_calls_app tr1 tr2 :
  model_calls (tr1 ++ tr2) = model_calls tr1 ++ model_calls tr2.
Proof. apply omap_app. Qed.

Lemma fractions_app tr1 tr2 : fractions (tr1 ++ tr2) = fractions tr1 ++ fractions tr2.
Proof. apply omap_app. Qed.

Lemma assigned_app tr1 tr2 : assigned (tr1 ++ tr2) = assigned tr1 ++ assigned tr2.
Proof. apply omap_app. Qed.

Lemma events_since_app w w' d : trace w' = trace w ++ d -> events_since w w' = d.
Proof. unfold events_since. intros ->. by rewrite drop_app_length. Qed.

Lemma logs_app w1 w2 w3 d1 d2 : logs w1 w2 d1 -> logs w2 w3 d2 -> logs w1 w3 (d1 ++ d2).
Proof.
  intros [Hh1 Ht1] [Hh2 Ht2]. split; [congruence|].
  by rewrite Ht2, Ht1, app_assoc.
Qed.

Lemma emit_ok e w r w' : emit e w = (r, w') -> r = Ok tt /\ logs w w' [e].
Proof. unfold emit. intros [= <- <-]. by split. Qed.

Lemma deref_ok l w t w' : deref l w = (Ok t, w') -> w' = w /\ heap w !! l = Some t.
Proof.
  unfold deref. destruct (heap w !! l) eqn:Hl; [|discriminate].
  by intros [= -> ->].
Qed.

Lemma deref_run l w t : heap w !! l = Some t -> deref l w = (Ok t, w).
Proof. unfold deref. by intros ->. Qed.

Lemma map_deref_ok ls w ts w' :
  map_comp deref ls w = (Ok ts, w') ->
  w' = w /\ Forall2 (fun l t => heap w !! l = Some t) ls ts.
Proof.
  revert ts w'. induction ls as [|l ls IH]; intros ts w' H; simpl in H.
  - apply ret_ok in H as [-> ->]. by split.
  - comp_inv H as t ? Ht. apply deref_ok in Ht as [-> Hl].
    comp_inv H as ts' ? Hts. apply IH in Hts as [-> Hls].
    apply ret_ok in H as [-> ->]. split; [done|by constructor].
Qed.

Lemma map_deref_run ls w ts :
  Forall2 (fun l t => heap w !! l = Some t) ls ts ->
  map_comp deref ls w = (Ok ts, w).
Proof.
  induction 1 as [|l t ls ts Hl _ IH]; simpl; [done|].
  rewrite (bind_run _ _ _ _ _ (deref_run _ _ _ Hl)).
  by rewrite (bind_run _ _ _ _ _ IH).
Qed.

Lemma random_choice_ok seq w l w' : random_choice seq w = (Ok l, w') -> w' = w.
Proof.
  unfold random_choice. destruct (seq !! _); [|discriminate]. by intros [= _ ->].
Qed.

Lemma create_chat_completion_ok model msgs w r w' :
  create_chat_completion model msgs w = (r, w') -> logs w w' [ChatCompletion model msgs].
Proof. unfold create_chat_completion. intros [= _ <-]. by split. Qed.

(** ** One batch *)

Lemma request_summaries_ok threads chunk model w reply w' :
  request_summaries threads chunk model w = (Ok reply, w') ->
  (exists s1 s2 msgs,
      logs w w' [StatusMarkdown s1; SampleMarkdown s2; ChatCompletion model msgs])
  /\ exists ts, Forall2 (fun l t => heap w !! l = Some t) chunk ts.
Proof.
  unfold request_summaries. intros H.
  comp_inv H as ts ? Hts. apply map_deref_ok in Hts as [-> Hts].
  comp_inv H as first ? Hf. apply lift_ok in Hf as [_ ->].
  comp_inv H as t0 ? Ht0. apply deref_ok in Ht0 as [-> _].
  comp_inv H as [] ? L1. apply emit_ok in L1 as [_ L1].
  comp_inv H as sample ? Hs. apply random_choice_ok in Hs as ->.
  comp_inv H as st ? Hst. apply deref_ok in Hst as [-> _].
  comp_inv H as [] ? L2. apply emit_ok in L2 as [_ L2].
  apply create_chat_completion_ok in H.
  split; [|eauto]. do 3 eexists.
  exact (logs_app _ _ _ _ _ L1 (logs_app _ _ _ _ _ L2 H)).
Qed.

Lemma assign_summary_ok l v w w' :
  assign_summary l v w = (Ok tt, w') ->
  exists t, heap w !! l = Some t
            /\ heap w' = <[l := Thread.set_summary v t]> (heap w)
            /\ trace w' = trace w ++ [AssignSummary l v].
Proof.
  unfold assign_summary. destruct (heap w !! l) as [t|] eqn:Hl; [|discriminate].
  intros [= <-]. eauto.
Qed.

Lemma attach_summary_ok summaries l w w' :
  attach_summary summaries l w = (Ok tt, w') ->
  exists t v, heap w !! l = Some t
              /\ get_method summaries (Thread.id t) (JObj []) = Ok v
              /\ heap w' = <[l := Thread.set_summary v t]> (heap w)
              /\ trace w' = trace w ++ [AssignSummary l v].
Proof.
  unfold attach_summary. intros H.
  comp_inv H as t0 ? Ht0. apply deref_ok in Ht0 as [-> Hl].
  comp_inv H as v ? Hv. apply lift_ok in Hv as [Hv ->].
  apply assign_summary_ok in H as (t & Hl' & Hh & Ht).
  rewrite Hl in Hl'. injection Hl' as <-. eauto 10.
Qed.

(** The assignments of one batch: one per entry of the chunk, in order,
    and nothing else is logged. *)
Lemma for_each_attach_ok summaries chunk w w' :
  for_each (attach_summary summaries) chunk w = (Ok tt, w') ->
  exists d, trace w' = trace w ++ d /\ assigned d = chunk
            /\ model_calls d = [] /\ fractions d = [].
Proof.
  revert w. induction chunk as [|l chunk IH]; intros w H; simpl in H.
  - apply ret_ok in H as [_ ->]. exists []. by rewrite app_nil_r.
  - comp_inv H as [] w1 H1.
    apply attach_summary_ok in H1 as (t & v & _ & _ & _ & Ht).
    apply IH in H as (d & Hd & Ha & Hm & Hf).
    exists (AssignSummary l v :: d). rewrite Hd, Ht, <- app_assoc.
    simpl. unfold assigned, model_calls, fractions in *. simpl.
    by rewrite Ha, Hm, Hf.
Qed.

Lemma report_progress_ok done total w w' :
  report_progress done total w = (Ok tt, w') ->
  total <> 0
  /\ logs w w' [ProgressBar (Qred (inject_Z done / inject_Z total)); TimerCb; Sleep (1 # 2)].
Proof.
  unfold report_progress, py_truediv. intros H.
  comp_inv H as q ? Hq. apply lift_ok in Hq as [Hq ->].
  destruct (Z.eqb_spec total 0) as [|Hne]; [discriminate|].
  injection Hq as <-.
  comp_inv H as [] ? L1. apply emit_ok in L1 as [_ L1].
  comp_inv H as [] ? L2. apply emit_ok in L2 as [_ L2].
  apply emit_ok in H as [_ L3]. split; [done|].
  exact (logs_app _ _ _ _ _ L1 (logs_app _ _ _ _ _ L2 L3)).
Qed.

Lemma summarise_batch_ok threads total model batch done i w d' w' :
  summarise_batch threads total model batch done i w = (Ok d', w') ->
  d' = done + len (py_slice threads i (i + batch))
  /\ total <> 0
  /\ exists d, trace w' = trace w ++ d
               /\ length (model_calls d) = 1%nat
               /\ fractions d = [Qred (inject_Z d' / inject_Z total)]
               /\ assigned d = py_slice threads i (i + batch).
Proof.
  unfold summarise_batch. intros H.
  comp_inv H as reply w1 H1.
  apply request_summaries_ok in H1 as [(s1 & s2 & msgs & _ & L1) _].
  comp_inv H as [] w2 H2. unfold attach_summaries in H2.
  comp_inv H2 as summaries ? Hj. apply lift_ok in Hj as [_ ->].
  apply for_each_attach_ok in H2 as (d2 & L2 & Ha & Hm & Hf).
  comp_inv H as [] w3 H3. apply report_progress_ok in H3 as (Hne & _ & L3).
  apply ret_ok in H as [-> ->]. split; [done|]. split; [done|].
  exists ([StatusMarkdown s1; SampleMarkdown s2; ChatCompletion model msgs] ++ d2
          ++ [ProgressBar (Qred (inject_Z (done + len (py_slice threads i (i + batch)))
                                 / inject_Z total)); TimerCb; Sleep (1 # 2)]).
  split.
  { rewrite L3, L2, L1. by rewrite <- !app_assoc. }
  rewrite !model_calls_app, !fractions_app, !assigned_app, Ha, Hm, Hf.
  cbn. by rewrite app_nil_r.
Qed.

(** ** The loop of [summarise_threads] *)

Lemma len_take_step {A} (l : list A) (k B : nat) :
  len (take (k * B) l) + len (take B (drop (k * B) l)) = len (take (S k * B) l).
Proof.
  unfold len. rewrite <- Nat2Z.inj_add, <- length_app, take_take_drop.
  do 3 f_equal. lia.
Qed.

(** After the batches [k0 .. k0 + n - 1], [done] counts the threads of
    the first [k0 + n] batches; every batch made one call, reported one
    fraction, and assigned the summaries of its chunk. *)
Lemma summarise_loop_ok threads model b n :
  1 <= b ->
  forall k0 w d' w',
    for_fold (summarise_batch threads (len threads) model b)
      (len (take (k0 * Z.to_nat b) threads))
      (map (fun k => 0 + Z.of_nat k * b) (seq k0 n)) w = (Ok d', w') ->
    exists d,
      trace w' = trace w ++ d
      /\ length (model_calls d) = n
      /\ fractions d =
           map (fun k => Qred (inject_Z (len (take (S k * Z.to_nat b) threads))
                               / inject_Z (len threads))) (seq k0 n)
      /\ assigned d =
           concat (map (fun k => take (Z.to_nat b) (drop (k * Z.to_nat b) threads))
                       (seq k0 n)).
Proof.
  intros Hb. induction n as [|n IH]; intros k0 w d' w' H; simpl in H.
  - apply ret_ok in H as [_ ->]. exists []. by rewrite app_nil_r.
  - comp_inv H as done1 w1 H1.
    apply summarise_batch_ok in H1 as (Hd & _ & d1 & L1 & Hm1 & Hf1 & Ha1).
    rewrite py_slice_nonneg in Hd, Ha1 by lia.
    replace (Z.to_nat (0 + Z.of_nat k0 * b)) with (k0 * Z.to_nat b)%nat in Hd, Ha1 by lia.
    rewrite len_take_step in Hd. subst done1.
    apply IH in H as (d2 & L2 & Hm2 & Hf2 & Ha2).
    exists (d1 ++ d2). rewrite L2, L1, <- app_assoc. split; [done|].
    rewrite model_calls_app, fractions_app, assigned_app, length_app.
    rewrite Hm1, Hm2, Hf1, Hf2, Ha1, Ha2. by simpl.
Qed.

(** A run of [summarise_threads] that returns, for a batch size of at
    least one. *)
Lemma summarise_threads_ok threads model b w w' :
  1 <= b ->
  summarise_threads threads model b w = (Ok tt, w') ->
  let n := Z.to_nat (range_length 0 (len threads) b) in
  length (model_calls (events_since w w')) = n
  /\ fractions (events_since w w') =
       map (fun k => Qred (inject_Z (len (take (S k * Z.to_nat b) threads))
                           / inject_Z (len threads))) (seq 0 n)
  /\ assigned (events_since w w') = threads.
Proof.
  intros Hb H n. unfold summarise_threads, py_range in H.
  destruct (Z.eqb_spec b 0) as [?|_]; [lia|].
  comp_inv H as idx w0 H0. apply lift_ok in H0 as [[= <-] ->].
  comp_inv H as done w1 H1.
  change 0 with (len (take (0 * Z.to_nat b) threads)) in H1 at 1.
  apply summarise_loop_ok in H1 as (d & L & Hm & Hf & Ha); [|done].
  apply emit_ok in H as [_ [_ L']].
  rewrite (events_since_app w w' (d ++ [StatusMarkdown (lit "**Summarising complete!**")])).
  2: { rewrite L', L. by rewrite <- app_assoc. }
  rewrite model_calls_app, fractions_app, assigned_app, length_app.
  cbn. rewrite !app_nil_r, Nat.add_0_r. split; [done|]. split; [done|].
  rewrite Ha. by apply concat_all_slices.
Qed.

(** ** Fractions *)

Lemma fraction_lt (a c t : Z) :
  0 < t -> a < c ->
  (Qred (inject_Z a / inject_Z t) < Qred (inject_Z c / inject_Z t))%Q.
Proof.
  intros Ht Hac. rewrite !Qred_correct. unfold Qdiv.
  apply Qmult_lt_compat_r.
  - apply Qinv_lt_0_compat. change 0%Q with (inject_Z 0). by rewrite <- Zlt_Qlt.
  - by rewrite <- Zlt_Qlt.
Qed.

Lemma fraction_one (t : Z) : 0 < t -> Qred (inject_Z t / inject_Z t) = 1%Q.
Proof.
  intros Ht. change 1%Q with (Qred 1). apply Qred_complete.
  apply Qmult_inv_r. intros H0. change 0%Q with (inject_Z 0) in H0.
  unfold Qeq in H0. simpl in H0. lia.
Qed.

Lemma increasing_map_seq (f : nat -> Q) n k0 :
  (forall k, (k0 <= k)%nat -> (S k < k0 + n)%nat -> (f k < f (S k))%Q) ->
  increasing (map f (seq k0 n)).
Proof.
  revert k0. induction n as [|n IH]; intros k0 Hf; [done|].
  destruct n as [|n]; [done|].
  change (increasing (f k0 :: map f (seq (S k0) (S n)))).
  change (map f (seq (S k0) (S n))) with (f (S k0) :: map f (seq (S (S k0)) n)).
  split; [apply Hf; lia|].
  apply (IH (S k0)). intros k ? ?. apply Hf; lia.
Qed.

(** ** [summarise_threads]: calls and completion fractions *)

(** C1: a run of [summarise_threads] on a non-empty thread list with a
    batch size of at least one, once it returns, has reported completion
    fractions that are strictly increasing and end at 1; with 12 threads
    and a batch size of 6 it has issued exactly 2 language-model calls
    and reported the fractions 1/2 then 1. *)
Theorem summarise_threads_progress threads model batch w w' :
  threads <> [] -> 1 <= batch ->
  summarise_threads threads model batch w = (Ok tt, w') ->
  increasing (fractions (events_since w w'))
  /\ last (fractions (events_since w w')) = Some 1%Q
  /\ (length threads = 12%nat -> batch = 6 ->
      length (model_calls (events_since w w')) = 2%nat
      /\ fractions (events_since w w') = [1 # 2; 1]%Q).
Proof.
  intros Hne Hb H.
  destruct (summarise_threads_ok threads model batch w w' Hb H) as (Hm & Hf & _).
  rewrite Hm, Hf. clear H Hm Hf.
  assert (HL : (0 < length threads)%nat) by (destruct threads; [done|simpl; lia]).
  pose proof (range_length_pos_step (len threads) batch) as Hr.
  unfold len in Hr. destruct Hr as [(Hr0 & Hr1 & Hr2)|[? _]]; [lia|done| |lia].
  set (n := Z.to_nat (range_length 0 (len threads) batch)).
  set (B := Z.to_nat batch).
  assert (Hn1 : (length threads <= n * B)%nat) by (unfold n, B, len; nia).
  assert (Hn2 : ((n - 1) * B < length threads)%nat) by (unfold n, B, len; nia).
  assert (HB : (1 <= B)%nat) by (unfold B; lia).
  assert (Hn : (1 <= n)%nat) by (destruct n; simpl in *; lia).
  split; [|split].
  - apply increasing_map_seq. intros k _ Hk.
    apply fraction_lt; [unfold len; lia|].
    unfold len. rewrite !length_take.
    assert (S k * B <= (n - 1) * B)%nat by (apply Nat.mul_le_mono_r; lia).
    change (S (S k) * B)%nat with (B + S k * B)%nat. lia.
  - destruct n as [|n']; [lia|].
    rewrite seq_S, map_app. cbn [map]. rewrite last_snoc. f_equal. cbn [Nat.add].
    rewrite take_ge by (simpl in Hn1; lia).
    apply fraction_one. unfold len. lia.
  - intros H12 ->. unfold n, B, len. rewrite H12. split; [done|].
    change (Z.to_nat (range_length 0 (Z.of_nat 12) 6)) with 2%nat.
    cbn [seq map]. unfold len. rewrite !length_take, H12. reflexivity.
Qed.

(** ** [summarise_threads]: what it leaves untouched *)

Lemma same_fetched_preorder : preorder_on same_fetched.
Proof.
  split.
  - intros w l t Hl. eauto.
  - intros w1 w2 w3 H12 H23 l t Hl.
    destruct (H12 l t Hl) as (t2 & Hl2 & E2).
    destruct (H23 l t2 Hl2) as (t3 & Hl3 & E3).
    exists t3. split; [done|congruence].
Qed.

Lemma same_fetched_heap w w' : heap w' = heap w -> same_fetched w w'.
Proof. intros E l t Hl. rewrite E. eauto. Qed.

Lemma emit_same_fetched e : respects same_fetched (emit e).
Proof. intros w. by apply same_fetched_heap. Qed.

Lemma deref_same_fetched l : respects same_fetched (deref l).
Proof.
  intros w. apply same_fetched_heap. unfold deref. by destruct (heap w !! l).
Qed.

Lemma random_choice_same_fetched seq : respects same_fetched (random_choice seq).
Proof.
  intros w. apply same_fetched_heap. unfold random_choice. by destruct (seq !! _).
Qed.

Lemma create_same_fetched model msgs :
  respects same_fetched (create_chat_completion model msgs).
Proof. intros w. by apply same_fetched_heap. Qed.

Lemma assign_summary_same_fetched l v : respects same_fetched (assign_summary l v).
Proof.
  intros w l0 t0 Hl0. unfold assign_summary.
  destruct (heap w !! l) as [t|] eqn:Hl; simpl; [|eauto].
  destruct (decide (l = l0)) as [->|Hne].
  - rewrite list_lookup_insert_eq by (by eapply lookup_lt_Some).
    eexists. split; [done|]. by assert (t = t0) as -> by congruence.
  - rewrite list_lookup_insert_ne by done. eauto.
Qed.

Lemma summarise_threads_same_fetched threads model batch :
  respects same_fetched (summarise_threads threads model batch).
Proof.
  pose proof same_fetched_preorder as HR.
  pose proof emit_same_fetched. pose proof deref_same_fetched.
  pose proof random_choice_same_fetched. pose proof create_same_fetched.
  pose proof assign_summary_same_fetched.
  unfold summarise_threads, summarise_batch, request_summaries, attach_summaries,
    attach_summary, report_progress.
  respects_steps HR.
Qed.

(** C9: [summarise_threads] changes only the [summary] key.  However the
    call ends, every thread of the store keeps its [id], [title], [body],
    [comments], [url] and [created]; when the call returns (batch size at
    least one), the assignments to [summary] are, in order, exactly the
    entries of the thread list, so each thread of a list without repeated
    references is assigned exactly once. *)
Theorem summarise_threads_frame threads model batch w :
  let r := summarise_threads threads model batch w in
  (forall l t, heap w !! l = Some t ->
     exists t', heap (snd r) !! l = Some t'
       /\ Thread.id t' = Thread.id t /\ Thread.title t' = Thread.title t
       /\ Thread.body t' = Thread.body t /\ Thread.comments t' = Thread.comments t
       /\ Thread.url t' = Thread.url t /\ Thread.created t' = Thread.created t)
  /\ (fst r = Ok tt -> 1 <= batch ->
      assigned (events_since w (snd r)) = threads
      /\ (NoDup threads -> forall l, l ∈ threads ->
          count_occ Nat.eq_dec (assigned (events_since w (snd r))) l = 1%nat)).
Proof.
  intros r. split.
  - intros l t Hl.
    destruct (summarise_threads_same_fetched threads model batch w l t Hl)
      as (t' & Hl' & E).
    exists t'. split; [exact Hl'|]. unfold Thread.fetched in E.
    by injection E as -> -> -> -> -> ->.
  - intros Hr Hb.
    assert (H : summarise_threads threads model batch w = (Ok tt, snd r)).
    { subst r. destruct (summarise_threads _ _ _ _) as [r0 w0]. simpl in *. by subst. }
    destruct (summarise_threads_ok _ _ _ _ _ Hb H) as (_ & _ & Ha).
    split; [exact Ha|]. intros Hnd l Hl. rewrite Ha.
    apply NoDup_ListNoDup in Hnd.
    apply (proj1 (NoDup_count_occ' Nat.eq_dec threads) Hnd). by apply list_elem_of_In.
Qed.

(** ** [summarise_threads] on no thread *)

(** C10: on an empty thread list (and a batch size other than zero, the
    one value [range] rejects) [summarise_threads] issues no
    language-model call, never evaluates [done / total] (no fraction is
    reported, no [ZeroDivisionError] arises), and returns normally after
    setting the completion status. *)
Theorem summarise_threads_empty model batch w :
  batch <> 0 ->
  summarise_threads [] model batch w =
    (Ok tt, {| heap := heap w;
               trace := trace w ++ [StatusMarkdown (lit "**Summarising complete!**")] |})
  /\ model_calls (events_since w (snd (summarise_threads [] model batch w))) = []
  /\ fractions (events_since w (snd (summarise_threads [] model batch w))) = [].
Proof.
  intros Hb.
  assert (H : summarise_threads [] model batch w =
    (Ok tt, {| heap := heap w;
               trace := trace w ++ [StatusMarkdown (lit "**Summarising complete!**")] |})).
  { unfold summarise_threads, py_range, range_length.
    destruct (Z.eqb_spec batch 0) as [?|_]; [done|].
    by destruct (0 <? batch). }
  split; [exact H|]. rewrite H. simpl.
  by rewrite (events_since_app w _ [StatusMarkdown (lit "**Summarising complete!**")]).
Qed.

(** ** Missing keys in the reply *)

Lemma set_summary_twice v v' t :
  Thread.set_summary v (Thread.set_summary v' t) = Thread.set_summary v t.
Proof. by destruct t. Qed.

(** When the reply is a dictionary, the loop of lines 119 and 120 runs
    to its end, and leaves every thread of the chunk with the value
    found under its id, or the empty dictionary. *)
Lemma for_each_attach_run items chunk :
  forall w,
    (forall l, l ∈ chunk -> is_Some (heap w !! l)) ->
    exists w',
      for_each (attach_summary (JObj items)) chunk w = (Ok tt, w')
      /\ forall l,
           heap w' !! l =
             (fun t => if decide (l ∈ chunk)
                       then Thread.set_summary (summary_for items t) t else t)
               <$> heap w !! l.
Proof.
  induction chunk as [|l0 chunk IH]; intros w Hv.
  - exists w. split; [done|]. intros l. destruct (heap w !! l); simpl; [|done].
    destruct (decide (l ∈ [])) as [Hin|_]; [by apply elem_of_nil in Hin|done].
  - destruct (Hv l0 ltac:(left)) as [t0 Hl0].
    set (w1 := {| heap := <[l0 := Thread.set_summary (summary_for items t0) t0]> (heap w);
                  trace := trace w ++ [AssignSummary l0 (summary_for items t0)] |}).
    assert (H1 : attach_summary (JObj items) l0 w = (Ok tt, w1)).
    { unfold attach_summary. rewrite (bind_run _ _ _ _ _ (deref_run _ _ _ Hl0)).
      unfold get_method, w1, bind, lift, assign_summary, summary_for.
      destruct (dict_lookup (Thread.id t0) items); by rewrite Hl0. }
    destruct (IH w1) as (w' & Hrun & Hheap).
    { intros l Hl. simpl. apply lookup_lt_is_Some. rewrite length_insert.
      apply lookup_lt_is_Some. apply Hv. by right. }
    exists w'. split.
    { simpl. by rewrite (bind_run _ _ _ _ _ H1). }
    intros l. rewrite Hheap. simpl.
    destruct (decide (l0 = l)) as [->|Hne].
    + rewrite list_lookup_insert_eq by (by eapply lookup_lt_Some).
      rewrite Hl0. simpl. f_equal.
      rewrite (decide_True (P := l ∈ l :: chunk)) by left.
      case_decide; [|done]. by rewrite set_summary_twice.
    + rewrite list_lookup_insert_ne by done.
      destruct (heap w !! l); simpl; [|done]. f_equal.
      destruct (decide (l ∈ chunk)) as [Hin|Hout].
      * by rewrite decide_True by (by right).
      * rewrite decide_False; [done|]. by intros [?|?]%elem_of_cons.
Qed.

Lemma report_progress_run done total w :
  total <> 0 ->
  report_progress done total w =
    (Ok tt, {| heap := heap w;
               trace := trace w ++ [ProgressBar (Qred (inject_Z done / inject_Z total));
                                    TimerCb; Sleep (1 # 2)] |}).
Proof.
  intros Hne. unfold report_progress, py_truediv, bind, lift, emit.
  destruct (Z.eqb_spec total 0) as [?|_]; [done|]. simpl.
  by rewrite <- !app_assoc.
Qed.

(** C3: in any batch for which the model call returned and the reply
    parses as a dictionary, the batch runs to its end whatever keys the
    dictionary holds (nothing is raised, the loop goes on to the next
    batch with [done] advanced), and every thread of the batch whose id is
    not a key of the dictionary ends the batch with [summary = {}]. *)
Theorem missing_id_gets_empty_summary threads model batch done i w reply w1 items :
  threads <> [] ->
  request_summaries threads (py_slice threads i (i + batch)) model w = (Ok reply, w1) ->
  json_loads reply = Ok (JObj items) ->
  exists w',
    summarise_batch threads (len threads) model batch done i w
      = (Ok (done + len (py_slice threads i (i + batch))), w')
    /\ forall l t,
         l ∈ py_slice threads i (i + batch) ->
         heap w !! l = Some t ->
         dict_lookup (Thread.id t) items = None ->
         exists t', heap w' !! l = Some t' /\ Thread.summary t' = Some (JObj []).
Proof.
  intros Hne Hreq Hjson.
  destruct (request_summaries_ok _ _ _ _ _ _ Hreq) as [(s1 & s2 & msgs & Hh & _) (ts & Hts)].
  destruct (for_each_attach_run items (py_slice threads i (i + batch)) w1)
    as (w2 & Hrun & Hheap).
  { intros l Hl. rewrite Hh.
    apply list_elem_of_lookup in Hl as [k Hk].
    destruct (Forall2_lookup_l _ _ _ _ _ Hts Hk) as (t & _ & Ht). by exists t. }
  eexists. split.
  - unfold summarise_batch. rewrite (bind_run _ _ _ _ _ Hreq).
    unfold attach_summaries at 1. unfold bind at 2. unfold lift at 1.
    rewrite Hjson. unfold bind at 1. rewrite Hrun.
    unfold bind at 1. rewrite report_progress_run.
    + reflexivity.
    + unfold len. destruct threads; [done|simpl; lia].
  - intros l t Hl Ht Hnone. simpl. rewrite Hheap, Hh, Ht. simpl.
    rewrite decide_True by done. eexists. split; [done|].
    unfold summary_for. by rewrite Hnone.
Qed.

(** ** The corpus of [generate_report] *)

Lemma upto_take {A} (n : Z) (l : list A) : 0 <= n -> upto n l = take (Z.to_nat n) l.
Proof.
  intros Hn. unfold upto. change n with (0 + n) at 1.
  by rewrite py_slice_nonneg by lia.
Qed.

Lemma deref_all w threads (P : Thread.t -> Prop) :
  (forall l, l ∈ threads -> exists t, heap w !! l = Some t /\ P t) ->
  exists ts, Forall2 (fun l t => heap w !! l = Some t) threads ts /\ Forall P ts.
Proof.
  induction threads as [|l threads IH]; intros H.
  - exists []. by split.
  - destruct (H l ltac:(left)) as (t & Hl & Ht).
    destruct IH as (ts & Hts & HP); [intros l' Hl'; apply H; by right|].
    exists (t :: ts). split; by constructor.
Qed.

Lemma corpus_entries_total ts :
  Forall (fun t => exists items, Thread.summary t = Some (JObj items)) ts ->
  exists ps, corpus_entries ts = Ok ps.
Proof.
  induction 1 as [|t ts [items Hs] _ [ps IH]]; simpl; [by eexists|].
  unfold corpus_entry. rewrite Hs. simpl.
  destruct (dict_lookup (lit "gist") items); rewrite IH; by eexists.
Qed.

(** C2: for a thread list whose summaries are all present and are
    mappings, the entries (title, gist, URL citation) are joined, the
    joined string is cut to its first 15000 characters when it is longer
    and left as it is otherwise, and that corpus is what the one synthesis
    call carries in its assistant message. *)
Theorem corpus_truncation genre threads questions w :
  (forall l, l ∈ threads ->
     exists t, heap w !! l = Some t
               /\ exists items, Thread.summary t = Some (JObj items)) ->
  exists ts joined corpus,
    Forall2 (fun l t => heap w !! l = Some t) threads ts
    /\ joined_corpus ts = Ok joined
    /\ build_corpus ts = Ok corpus
    /\ (15000 < len joined ->
        corpus = take (Z.to_nat 15000) joined /\ len corpus = 15000)
    /\ (len joined <= 15000 -> corpus = joined)
    /\ model_calls (events_since w (snd (generate_report genre threads questions w)))
       = [(lit "o3",
           [ {| role := lit "system"; content := analyst_prompt genre |};
             {| role := lit "assistant";
                content := lit "CORPUS (" ++ decimal (len threads) ++ lit " threads):"
                           ++ nl ++ corpus |};
             {| role := lit "user"; content := q_block questions |} ])].
Proof.
  intros H. destruct (deref_all w threads _ H) as (ts & Hts & Hsum).
  destruct (corpus_entries_total ts Hsum) as (ps & Hps).
  exists ts, (join (nl ++ nl) ps), (upto 15000 (join (nl ++ nl) ps)).
  assert (Hj : joined_corpus ts = Ok (join (nl ++ nl) ps))
    by (unfold joined_corpus; by rewrite Hps).
  assert (Hc : build_corpus ts = Ok (upto 15000 (join (nl ++ nl) ps)))
    by (unfold build_corpus; by rewrite Hj).
  split; [done|]. split; [done|]. split; [done|].
  rewrite upto_take by lia. unfold len. split; [|split].
  - intros Hlong. split; [done|]. rewrite length_take. lia.
  - intros Hshort. apply take_ge. lia.
  - assert (Hm : synthesis_messages genre threads questions w =
      (Ok [ {| role := lit "system"; content := analyst_prompt genre |};
            {| role := lit "assistant";
               content := lit "CORPUS (" ++ decimal (Z.of_nat (length threads))
                          ++ lit " threads):" ++ nl
                          ++ take (Z.to_nat 15000) (join (nl ++ nl) ps) |};
            {| role := lit "user"; content := q_block questions |} ], w)).
    { unfold synthesis_messages.
      rewrite (bind_run _ _ _ _ _ (map_deref_run _ _ _ Hts)).
      rewrite Hc, upto_take by lia. reflexivity. }
    unfold generate_report. rewrite (bind_run _ _ _ _ _ Hm).
    unfold bind, create_chat_completion, emit, ret.
    destruct (chat_completions_create _ _ _); simpl.
    + by erewrite events_since_app by (simpl; by rewrite <- app_assoc).
    + by erewrite events_since_app by done.
Qed.

(** ** The PDF export *)

Lemma load_txt_buf :
  load_name "txt_buf" (bind_name "txt_buf" names_before_download) = Ok tt.
Proof. reflexivity. Qed.

Lemma load_PDF :
  load_name "PDF"
    (exec_class PDF_class_1
       (bind_name "unidecode" (bind_name "txt_buf" names_before_download))) = Ok tt.
Proof. reflexivity. Qed.



(** C8 (the script against its own docstring): [build_pdf] is defined in
    the body of the second [PDF] class, so the module-level name
    [build_pdf] read at line 259 is bound nowhere.  For every report the
    download section ends with an exception, and whenever the first PDF
    export went through, that exception is the [NameError] on
    [build_pdf]: the call that should return the PDF bytes is never
    made. *)
Theorem build_pdf_call_unbound report_md w :
  load_name "build_pdf" names_at_build_pdf_call = Raise (NameError "build_pdf")
  /\ (exists e, fst (download_section report_md names_before_download w) = Raise e)
  /\ (forall b s, export_pdf report_md FPDF_new = (Ok b, s) ->
        fst (download_section report_md names_before_download w)
        = Raise (NameError "build_pdf")).
Proof.
  assert (Hname : load_name "build_pdf" names_at_build_pdf_call
                  = Raise (NameError "build_pdf")) by reflexivity.
  split; [exact Hname|].
  assert (Hrun : forall r, fst (export_pdf report_md FPDF_new) = r ->
            fst (download_section report_md names_before_download w)
            = match r with Ok _ => Raise (NameError "build_pdf") | Raise e => Raise e end).
  { intros r <-. unfold download_section. cbv zeta.
    fold names_at_build_pdf_call. rewrite load_txt_buf, load_PDF, Hname.
    unfold bind, emit, lift, with_new_pdf. simpl.
    by destruct (export_pdf report_md FPDF_new) as [[b|e] s]. }
  split.
  - rewrite (Hrun _ eq_refl). destruct (fst _); eauto.
  - intros b s Hb. rewrite (Hrun _ eq_refl), Hb. done.
Qed.

(** ** The questions of a run *)

Lemma only_logs_preorder P : preorder_on (only_logs P).
Proof.
  split.
  - intros w. exists []. by rewrite app_nil_r.
  - intros w1 w2 w3 (d1 & E1 & F1) (d2 & E2 & F2). exists (d1 ++ d2).
    split; [by rewrite E2, E1, app_assoc|by apply Forall_app].
Qed.

Lemma only_logs_silent P w w' : trace w' = trace w -> only_logs P w w'.
Proof. intros E. exists []. by rewrite app_nil_r. Qed.

Lemma emit_only_logs (P : event -> Prop) e : P e -> respects (only_logs P) (emit e).
Proof. intros He w. exists [e]. split; [done|by constructor]. Qed.

Lemma create_only_logs (P : event -> Prop) model msgs :
  P (ChatCompletion model msgs) ->
  respects (only_logs P) (create_chat_completion model msgs).
Proof. intros He w. exists [ChatCompletion model msgs]. split; [done|by constructor]. Qed.

Lemma deref_only_logs P l : respects (only_logs P) (deref l).
Proof. intros w. apply only_logs_silent. unfold deref. by destruct (heap w !! l). Qed.

Lemma alloc_only_logs P t : respects (only_logs P) (alloc t).
Proof. intros w. by apply only_logs_silent. Qed.

Lemma get_trace_only_logs P : respects (only_logs P) get_trace.
Proof. intros w. by apply only_logs_silent. Qed.

Lemma random_choice_only_logs P seq : respects (only_logs P) (random_choice seq).
Proof.
  intros w. apply only_logs_silent. unfold random_choice. by destruct (seq !! _).
Qed.

Lemma with_new_pdf_only_logs {A} P (c : Comp fpdf A) :
  respects (only_logs P) (with_new_pdf c).
Proof. intros w. by apply only_logs_silent. Qed.

Lemma assign_summary_only_logs (P : event -> Prop) l v :
  P (AssignSummary l v) -> respects (only_logs P) (assign_summary l v).
Proof.
  intros He w. unfold assign_summary. destruct (heap w !! l); simpl.
  - exists [AssignSummary l v]. split; [done|by constructor].
  - by apply only_logs_silent.
Qed.

(** The steps of the script, for the shape of the calls. *)
Ltac shape_steps_using HR known :=
  repeat first
    [ known
    | apply (respects_ret _ _ HR)
    | apply (respects_raise _ _ HR)
    | apply (respects_lift _ _ HR)
    | apply (respects_bind _ _ _ HR)
    | apply (respects_for_each _ _ _ HR)
    | apply (respects_for_fold _ _ _ _ HR)
    | apply (respects_map_comp _ _ _ HR)
    | apply emit_only_logs; exact I
    | apply assign_summary_only_logs; exact I
    | apply create_only_logs; left; reflexivity
    | apply deref_only_logs
    | apply alloc_only_logs
    | apply get_trace_only_logs
    | apply random_choice_only_logs
    | apply with_new_pdf_only_logs
    | progress intros ].

Ltac shape_steps HR := shape_steps_using HR fail.

Lemma fetch_threads_shape qs sub limit :
  respects (only_logs (call_shape qs)) (fetch_threads sub limit).
Proof.
  pose proof (only_logs_preorder (call_shape qs)) as HR.
  unfold fetch_threads, fetch_post. shape_steps HR.
  destruct (snd _); shape_steps HR.
Qed.

Lemma summarise_threads_shape qs threads model batch :
  respects (only_logs (call_shape qs)) (summarise_threads threads model batch).
Proof.
  pose proof (only_logs_preorder (call_shape qs)) as HR.
  unfold summarise_threads, summarise_batch, request_summaries, attach_summaries,
    attach_summary, report_progress.
  shape_steps HR.
Qed.

Lemma map_deref_state ls w : snd (map_comp deref ls w) = w.
Proof.
  induction ls as [|l ls IH]; [done|]. simpl. unfold bind at 1, deref at 1.
  destruct (heap w !! l); [|done]. unfold bind at 1.
  destruct (map_comp deref ls w) as [[ts|e] w1]; simpl in *; by subst.
Qed.

Lemma synthesis_messages_result genre threads qs w :
  exists r, synthesis_messages genre threads qs w = (r, w)
            /\ forall msgs, r = Ok msgs ->
                 exists sys corpus,
                   msgs = [sys; corpus; {| role := lit "user"; content := q_block qs |}].
Proof.
  unfold synthesis_messages, bind.
  pose proof (map_deref_state threads w) as Hw.
  destruct (map_comp deref threads w) as [[ts|e] w1]; simpl in Hw; subst w1.
  - unfold lift. destruct (build_corpus ts) as [corpus|e]; simpl.
    + eexists. split; [reflexivity|]. intros msgs [= <-]. by do 2 eexists.
    + eexists. split; [reflexivity|]. by intros msgs [=].
  - eexists. split; [reflexivity|]. by intros msgs [=].
Qed.

Lemma generate_report_shape qs genre threads :
  respects (only_logs (call_shape qs)) (generate_report genre threads qs).
Proof.
  pose proof (only_logs_preorder (call_shape qs)) as HR.
  intros w. unfold generate_report.
  destruct (synthesis_messages_result genre threads qs w) as (r & Hr & Hshape).
  unfold bind at 1. rewrite Hr. destruct r as [msgs|e]; [|apply HR].
  assert (Hk : respects (only_logs (call_shape qs))
                 (report <- create_chat_completion (lit "o3") msgs ;;
                  emit TimerCb ;; ret report)).
  { shape_steps HR. apply create_only_logs. right. by apply Hshape. }
  apply Hk.
Qed.

Lemma download_section_shape qs report_md ns :
  respects (only_logs (call_shape qs)) (download_section report_md ns).
Proof.
  pose proof (only_logs_preorder (call_shape qs)) as HR.
  unfold download_section. cbv zeta. shape_steps HR.
Qed.

Lemma pipeline_shape qs genre_input subreddit n_posts :
  respects (only_logs (call_shape qs)) (pipeline genre_input subreddit n_posts qs).
Proof.
  pose proof (only_logs_preorder (call_shape qs)) as HR.
  unfold pipeline.
  shape_steps_using HR
    ltac:(first [ apply fetch_threads_shape | apply summarise_threads_shape
                | apply generate_report_shape | apply download_section_shape ]).
Qed.

Lemma validate_shape qs subreddit questions :
  respects (only_logs (call_shape qs)) (validate subreddit questions).
Proof.
  pose proof (only_logs_preorder (call_shape qs)) as HR.
  unfold validate, stop_with.
  destruct (truthy subreddit), questions; shape_steps HR.
Qed.

(** C4: with no question left after the blank lines are dropped, a run
    shows an error and stops before any stage (its only effect is the
    error message); with six or more questions, the run keeps exactly
    the first five: they are the questions given to the stages after
    validation, and the user message of any synthesis call of the run is
    the block of these five. *)
Theorem question_bounds genre_input subreddit n_posts qs_text w :
  (stripped_questions qs_text = [] ->
   exists msg,
     run_research genre_input subreddit n_posts qs_text w
     = (Raise StopScript, {| heap := heap w; trace := trace w ++ [StError msg] |}))
  /\ ((6 <= length (stripped_questions qs_text))%nat ->
      questions qs_text = take 5 (stripped_questions qs_text)
      /\ length (questions qs_text) = 5%nat
      /\ (truthy subreddit = true ->
          run_research genre_input subreddit n_posts qs_text w
          = pipeline genre_input subreddit n_posts
              (take 5 (stripped_questions qs_text)) w)
      /\ Forall (call_shape (take 5 (stripped_questions qs_text)))
           (events_since w
              (snd (run_research genre_input subreddit n_posts qs_text w)))).
Proof.
  assert (Hq : questions qs_text = take 5 (stripped_questions qs_text)).
  { unfold questions. by rewrite upto_take by lia. }
  split.
  - intros Hnone. unfold run_research. rewrite Hq, Hnone. simpl.
    unfold validate, stop_with, bind, emit, raise, ret.
    destruct (truthy subreddit); simpl; eauto.
  - intros Hsix. split; [exact Hq|]. split; [|split].
    + rewrite Hq, length_take. lia.
    + intros Hsub. unfold run_research. rewrite Hq.
      destruct (take 5 (stripped_questions qs_text)) as [|q qs] eqn:E.
      { apply (f_equal length) in E. rewrite length_take in E.
        change (length []) with 0%nat in E. lia. }
      unfold validate, bind, ret. by rewrite Hsub.
    + pose proof (only_logs_preorder
                    (call_shape (take 5 (stripped_questions qs_text)))) as HR.
      assert (Hrun : respects (only_logs (call_shape (take 5 (stripped_questions qs_text))))
                       (run_research genre_input subreddit n_posts qs_text)).
      { unfold run_research. rewrite Hq. apply (respects_bind _ _ _ HR).
        - apply validate_shape.
        - intros _. apply pipeline_shape. }
      destruct (Hrun w) as (d & Hd & HP). by rewrite (events_since_app _ _ _ Hd).
Qed.

(** ** The text export *)

Lemma StringIO_write_new s :
  StringIO.getvalue (StringIO.write s StringIO.new) = s.
Proof. unfold StringIO.getvalue, StringIO.write. simpl. by rewrite drop_nil, app_nil_r. Qed.

Lemma two_events_then (k : Comp world unit) e1 e2 w :
  respects (only_logs (fun _ => True)) k ->
  exists rest,
    events_since w (snd ((emit e1 ;; lift (Ok tt) ;; emit e2 ;; k) w)) = e1 :: e2 :: rest.
Proof.
  intros Hk. unfold bind at 1 2 3. unfold emit, lift. simpl.
  match goal with |- context [k ?w2] =>
    destruct (Hk w2) as (d & Hd & _); exists d;
    apply events_since_app; rewrite Hd end.
  simpl. by rewrite <- !app_assoc.
Qed.

(** C6: the text export hands the report string itself to the download
    widget (written to a new text buffer and read back, nothing is
    changed), so the bytes served are the encoding of the report string;
    this is the download the script offers first; and exporting the same
    report again serves the same bytes. *)
Theorem text_export_verbatim report_md :
  text_export report_md = DataStr report_md
  /\ served_bytes (text_export report_md) = str_encode report_md
  /\ (forall w, exists rest,
        events_since w (snd (download_section report_md names_before_download w))
        = StMarkdown (lit "## " ++ [128229%N] ++ lit " Download Report")
          :: StDownloadButton ([128196%N] ++ lit " Download as .txt") (DataStr report_md)
               (lit "reddit_research_report.txt") (lit "text/plain")
          :: rest)
  /\ forall report', report' = report_md ->
       served_bytes (text_export report') = served_bytes (text_export report_md).
Proof.
  assert (H : text_export report_md = DataStr report_md).
  { unfold text_export. by rewrite StringIO_write_new. }
  split; [exact H|]. split; [by rewrite H|]. split; [|by intros ? ->].
  intros w. unfold download_section. cbv zeta. rewrite load_txt_buf, H.
  apply two_events_then.
  pose proof (only_logs_preorder (fun _ : event => True)) as HR.
  shape_steps HR.
Qed.

(** * Further properties of the code *)

(** ** Sizes of the batches *)

Lemma range_length_ceiling (n b : Z) :
  0 <= n -> 1 <= b -> range_length 0 n b = (n + b - 1) / b.
Proof.
  intros Hn Hb. unfold range_length.
  destruct (Z.ltb_spec 0 b) as [_|?]; [|lia].
  destruct (Z.ltb_spec 0 n) as [Hpos|Hz].
  - replace (n - 0 - 1) with (n - 1) by lia.
    replace (n + b - 1) with (n - 1 + 1 * b) by lia.
    rewrite Z.div_add by lia. lia.
  - replace n with 0 by lia. symmetry. apply Z.div_small. lia.
Qed.

Lemma slice_in {A} (l : list A) (i j : Z) (x : A) : x ∈ py_slice l i j -> x ∈ l.
Proof.
  unfold py_slice. intros H.
  apply elem_of_take in H as (k & H & _).
  apply list_elem_of_lookup. rewrite lookup_drop in H. eauto.
Qed.

(** X1: for a batch size of at least one the number of batches is the
    ceiling of [len(threads) / batch]; no batch is empty (so [chunk[0]]
    exists), none holds more than [batch] threads, and all but the last
    hold exactly [batch]. *)
Theorem batch_sizes {A} (threads : list A) (b : Z) :
  1 <= b ->
  exists bs,
    batches threads b = Ok bs
    /\ len bs = (len threads + b - 1) / b
    /\ Forall (fun c => 1 <= len c <= b) bs
    /\ forall k c, bs !! k = Some c -> (S k < length bs)%nat -> len c = b.
Proof.
  intros Hb. rewrite batches_pos_step by done. eexists. split; [done|].
  pose proof (range_length_pos_step (len threads) b ltac:(unfold len; lia) Hb) as Hr.
  set (n := Z.to_nat (range_length 0 (len threads) b)) in *.
  set (B := Z.to_nat b).
  assert (Hn2 : (0 < n -> (n - 1) * B < length threads)%nat).
  { intros Hn. unfold n, B, len in *. destruct Hr as [(? & ? & ?)|[_ ?]]; [nia|lia]. }
  assert (Hlen : forall k, (k < n)%nat ->
            length (take B (drop (k * B) threads))
            = Nat.min B (length threads - k * B)).
  { intros k Hk. by rewrite length_take, length_drop. }
  split; [|split].
  - unfold len at 1. rewrite length_map, length_seq.
    rewrite <- range_length_ceiling by (unfold len; lia).
    unfold n. rewrite Z2Nat.id; [done|].
    unfold len in *. destruct Hr as [(? & ? & ?)|[_ ?]]; lia.
  - apply Forall_forall. intros c Hc%list_elem_of_fmap_1.
    destruct Hc as (k & -> & Hk%elem_of_seq).
    unfold len. rewrite Hlen by lia.
    assert (k * B <= (n - 1) * B)%nat by (apply Nat.mul_le_mono_r; lia).
    specialize (Hn2 ltac:(lia)). unfold B in *. lia.
  - intros k c Hk Hlast. rewrite length_map, length_seq in Hlast.
    rewrite list_lookup_fmap in Hk.
    rewrite lookup_seq_lt in Hk by lia. simpl in Hk. injection Hk as <-.
    unfold len. rewrite Hlen by lia.
    assert (S k * B <= (n - 1) * B)%nat by (apply Nat.mul_le_mono_r; lia).
    specialize (Hn2 ltac:(lia)). unfold B in *. simpl in *. lia.
Qed.

(** ** The effects of [summarise_threads], batch by batch *)





(** ** Batch sizes that are not positive *)

(** X3: with a batch size of zero [summarise_threads] raises
    [ValueError] before doing anything, whatever the thread list; with a
    negative batch size it returns normally after logging only the
    completion status: no call is made and no thread receives a
    summary. *)
Theorem summarise_threads_bad_batch threads model w :
  summarise_threads threads model 0 w = (Raise ValueError, w)
  /\ forall batch, batch < 0 ->
       summarise_threads threads model batch w
       = (Ok tt, {| heap := heap w;
                    trace := trace w ++ [StatusMarkdown (lit "**Summarising complete!**")] |}).
Proof.
  split; [done|]. intros batch Hb.
  unfold summarise_threads, py_range, range_length.
  destruct (Z.eqb_spec batch 0) as [?|_]; [lia|].
  destruct (Z.ltb_spec 0 batch) as [?|_]; [lia|].
  destruct (Z.ltb_spec (len threads) 0) as [?|_]; [unfold len in *; lia|].
  reflexivity.
Qed.

(** ** Which threads [summarise_threads] writes to *)

Lemma respects_for_each_in {S A} (R : S -> S -> Prop) (body : A -> Comp S unit) (l : list A) :
  preorder_on R -> (forall x, x ∈ l -> respects R (body x)) -> respects R (for_each body l).
Proof.
  intros HR. induction l as [|x l IH]; intros Hb; simpl.
  - by apply respects_ret.
  - apply respects_bind; [done|apply Hb; by left|intros _].
    apply IH. intros y Hy. apply Hb. by right.
Qed.

Lemma assigns_within_preorder L : preorder_on (assigns_within L).
Proof.
  split.
  - intros w. split; [|split; [done|eauto]].
    exists []. rewrite app_nil_r. split; [done|]. intros l Hl. by apply elem_of_nil in Hl.
  - intros w1 w2 w3 ((d1 & E1 & A1) & O1 & M1) ((d2 & E2 & A2) & O2 & M2).
    split; [|split].
    + exists (d1 ++ d2). split; [by rewrite E2, E1, app_assoc|].
      intros l Hl. rewrite assigned_app in Hl. apply elem_of_app in Hl as [Hl|Hl].
      * destruct (A1 l Hl) as (HL & t2 & Hl2 & Hs2). split; [done|]. eauto.
      * by apply A2.
    + intros l Hl. by rewrite O2, O1.
    + intros l t Hl Hs. destruct (M1 l t Hl Hs) as (t2 & Hl2 & Hs2). eauto.
Qed.

Lemma assigns_within_quiet L w w' d :
  heap w' = heap w -> trace w' = trace w ++ d -> assigned d = [] -> assigns_within L w w'.
Proof.
  intros Hh Ht Ha. split; [|split].
  - exists d. split; [done|]. rewrite Ha. intros l Hl. by apply elem_of_nil in Hl.
  - intros l _. by rewrite Hh.
  - intros l t Hl Hs. rewrite Hh. eauto.
Qed.

Lemma emit_assigns_within L e :
  assigned [e] = [] -> respects (assigns_within L) (emit e).
Proof. intros He w. by apply (assigns_within_quiet L _ _ [e]). Qed.

Lemma deref_assigns_within L l : respects (assigns_within L) (deref l).
Proof.
  intros w. apply (assigns_within_quiet L _ _ []); [| |done];
    unfold deref; destruct (heap w !! l); simpl; by rewrite ?app_nil_r.
Qed.

Lemma random_choice_assigns_within L seq : respects (assigns_within L) (random_choice seq).
Proof.
  intros w. apply (assigns_within_quiet L _ _ []); [| |done];
    unfold random_choice; destruct (seq !! _); simpl; by rewrite ?app_nil_r.
Qed.

Lemma create_assigns_within L model msgs :
  respects (assigns_within L) (create_chat_completion model msgs).
Proof. intros w. by apply (assigns_within_quiet L _ _ [ChatCompletion model msgs]). Qed.

Lemma assign_summary_assigns_within L l v :
  l ∈ L -> respects (assigns_within L) (assign_summary l v).
Proof.
  intros HL w. unfold assign_summary.
  destruct (heap w !! l) as [t|] eqn:Hl; simpl.
  2: { apply (assigns_within_quiet L _ _ []); [done| |done]. by rewrite app_nil_r. }
  assert (Hnew : <[l := Thread.set_summary v t]> (heap w) !! l
                 = Some (Thread.set_summary v t))
    by (apply list_lookup_insert_eq; by eapply lookup_lt_Some).
  split; [|split]; simpl.
  - exists [AssignSummary l v]. split; [done|]. intros l0 Hl0.
    change (assigned [AssignSummary l v]) with [l] in Hl0.
    apply list_elem_of_singleton in Hl0 as ->. split; [done|].
    eexists. split; [exact Hnew|]. by eexists.
  - intros l0 Hl0. apply list_lookup_insert_ne. by intros ->.
  - intros l0 t0 Hl0 Hs. destruct (decide (l = l0)) as [<-|Hne].
    + eexists. split; [exact Hnew|]. by eexists.
    + rewrite list_lookup_insert_ne by done. eauto.
Qed.

Lemma summarise_threads_assigns_within threads model batch :
  respects (assigns_within threads) (summarise_threads threads model batch).
Proof.
  pose proof (assigns_within_preorder threads) as HR.
  unfold summarise_threads.
  apply (respects_bind _ _ _ HR); [by apply respects_lift|intros indices].
  apply (respects_bind _ _ _ HR); [|intros _; by apply emit_assigns_within].
  apply (respects_for_fold _ _ _ _ HR). intros done i.
  unfold summarise_batch, request_summaries, attach_summaries, report_progress.
  repeat first
    [ apply (respects_ret _ _ HR)
    | apply (respects_lift _ _ HR)
    | apply (respects_bind _ _ _ HR)
    | apply (respects_map_comp _ _ _ HR)
    | apply emit_assigns_within; reflexivity
    | apply deref_assigns_within
    | apply random_choice_assigns_within
    | apply create_assigns_within
    | progress intros ].
  apply (respects_for_each_in _ _ _ HR). intros l Hl%slice_in.
  unfold attach_summary.
  apply (respects_bind _ _ _ HR); [apply deref_assigns_within|intros t].
  apply (respects_bind _ _ _ HR); [by apply respects_lift|intros v].
  by apply assign_summary_assigns_within.
Qed.

(** X4: [summarise_threads] writes only to the threads of its list:
    however the call ends, every other thread of the store is exactly as
    it was; and when the call returns (batch size at least one), every
    thread of the list carries a [summary], so a later read of
    [t["summary"]] finds the key. *)
Theorem summarise_threads_summarised threads model batch w :
  let r := summarise_threads threads model batch w in
  (forall l, l ∉ threads -> heap (snd r) !! l = heap w !! l)
  /\ (fst r = Ok tt -> 1 <= batch ->
      forall l, l ∈ threads ->
        exists t', heap (snd r) !! l = Some t' /\ is_Some (Thread.summary t')).
Proof.
  intros r. subst r.
  destruct (summarise_threads_assigns_within threads model batch w)
    as ((d & Hd & Ha) & Ho & _).
  split; [exact Ho|]. intros Hr Hb l Hl.
  assert (H : summarise_threads threads model batch w
              = (Ok tt, snd (summarise_threads threads model batch w))).
  { destruct (summarise_threads _ _ _ _) as [r0 w0]. simpl in *. by subst. }
  destruct (summarise_threads_ok _ _ _ _ _ Hb H) as (_ & _ & Hassigned).
  rewrite (events_since_app _ _ _ Hd) in Hassigned.
  apply Ha. by rewrite Hassigned.
Qed.

(** ** A reply that is not a dictionary *)

Lemma for_each_attach_not_dict summaries l chunk w t :
  (forall items, summaries <> JObj items) ->
  heap w !! l = Some t ->
  for_each (attach_summary summaries) (l :: chunk) w = (Raise AttributeError, w).
Proof.
  intros Hnot Hl. simpl. unfold bind at 1. unfold attach_summary.
  rewrite (bind_run _ _ _ _ _ (deref_run _ _ _ Hl)).
  unfold bind, lift. destruct summaries; try done. by destruct (Hnot items).
Qed.

(** X5: when the reply of a batch cannot be parsed, the parser's
    exception ends the batch, and when it parses to something that is not
    a dictionary, the first [summaries.get] raises [AttributeError]; in
    both cases no thread of the batch is assigned a summary and no
    fraction is reported: the store is as it was before the batch. *)
Theorem bad_reply_aborts_batch threads model batch done i w reply w1 :
  request_summaries threads (py_slice threads i (i + batch)) model w = (Ok reply, w1) ->
  heap w1 = heap w
  /\ (forall e, json_loads reply = Raise e ->
        summarise_batch threads (len threads) model batch done i w = (Raise e, w1))
  /\ (forall v, json_loads reply = Ok v -> (forall items, v <> JObj items) ->
        summarise_batch threads (len threads) model batch done i w
        = (Raise AttributeError, w1)).
Proof.
  intros Hreq.
  destruct (request_summaries_ok _ _ _ _ _ _ Hreq) as [(s1 & s2 & msgs & Hh & _) (ts & Hts)].
  split; [done|]. split.
  - intros e He. unfold summarise_batch. rewrite (bind_run _ _ _ _ _ Hreq).
    unfold attach_summaries, bind, lift. by rewrite He.
  - intros v Hv Hnot. unfold summarise_batch. rewrite (bind_run _ _ _ _ _ Hreq).
    unfold attach_summaries. unfold bind at 1. unfold bind at 1. unfold lift at 1.
    rewrite Hv.
    assert (Hc : exists l chunk t, py_slice threads i (i + batch) = l :: chunk
                                   /\ heap w1 !! l = Some t).
    { unfold request_summaries in Hreq.
      comp_inv Hreq as ts' ? Hd. comp_inv Hreq as first ? Hf.
      apply lift_ok in Hf as [Hf _].
      destruct (py_slice threads i (i + batch)) as [|l chunk]; [done|].
      inversion Hts as [|? t ? ? Hl _]; subst. exists l, chunk, t. by rewrite Hh. }
    destruct Hc as (l & chunk & t & -> & Hl).
    by rewrite (for_each_attach_not_dict v l chunk w1 t Hnot Hl).
Qed.

(** ** [generate_report]: what it needs and what it returns *)

Lemma corpus_entries_ok ts ps :
  corpus_entries ts = Ok ps ->
  Forall (fun t => exists items, Thread.summary t = Some (JObj items)) ts.
Proof.
  revert ps. induction ts as [|t ts IH]; intros ps H; [done|]. simpl in H.
  destruct (corpus_entry t) as [p|e] eqn:Ht; [|done].
  destruct (corpus_entries ts) as [ps'|e] eqn:Hts; [|done].
  constructor; [|by eapply IH].
  unfold corpus_entry in Ht. destruct (Thread.summary t) as [s|]; [|done].
  destruct s; try done. by eexists.
Qed.

Lemma corpus_entry_raise t e :
  corpus_entry t = Raise e -> e = KeyError "summary" \/ e = AttributeError.
Proof.
  unfold corpus_entry. destruct (Thread.summary t) as [s|]; [|intros [= <-]; by left].
  destruct s; simpl; try (intros [= <-]; by right).
  by destruct (dict_lookup _ _).
Qed.

Lemma corpus_entries_raise ts e :
  corpus_entries ts = Raise e -> e = KeyError "summary" \/ e = AttributeError.
Proof.
  induction ts as [|t ts IH]; [done|]. simpl.
  destruct (corpus_entry t) as [p|e'] eqn:Ht.
  - destruct (corpus_entries ts) as [ps|e'']; [done|]. intros [= <-]. by apply IH.
  - intros [= <-]. by eapply corpus_entry_raise.
Qed.

(** X6: when a thread of the list has no [summary] key, or a summary
    that is not a mapping, [generate_report] raises before anything is
    sent ([KeyError] for the missing key, [AttributeError] for the missing
    [get]): no call is made, the timer callback is not run, the store is
    untouched. *)
Theorem generate_report_unsummarised genre threads questions w ts :
  Forall2 (fun l t => heap w !! l = Some t) threads ts ->
  Exists (fun t => forall items, Thread.summary t <> Some (JObj items)) ts ->
  exists e,
    generate_report genre threads questions w = (Raise e, w)
    /\ (e = KeyError "summary" \/ e = AttributeError).
Proof.
  intros Hts Hbad.
  destruct (corpus_entries ts) as [ps|e] eqn:Hps.
  - apply corpus_entries_ok in Hps. exfalso.
    apply Exists_exists in Hbad as (t & Hin & Hnot).
    rewrite Forall_forall in Hps. destruct (Hps t Hin) as [items Hs]. by eapply Hnot.
  - exists e. split; [|by eapply corpus_entries_raise].
    unfold generate_report, synthesis_messages.
    unfold bind at 1. rewrite (bind_run _ _ _ _ _ (map_deref_run _ _ _ Hts)).
    unfold build_corpus, joined_corpus. by rewrite Hps.
Qed.


(** ** The questions *)

Lemma rev_is_reverse {A} (l : list A) : rev l = reverse l.
Proof. by rewrite rev_alt. Qed.

Lemma lstrip_head s c : head (lstrip s) = Some c -> is_space c = false.
Proof.
  induction s as [|a s IH]; simpl; [done|].
  destruct (is_space a) eqn:Ha; [done|]. simpl. by intros [= <-].
Qed.

Lemma lstrip_suffix s : exists p, s = p ++ lstrip s.
Proof.
  induction s as [|a s [p IH]]; simpl; [by exists []|].
  destruct (is_space a); [|by exists []].
  exists (a :: p). simpl. by f_equal.
Qed.

Lemma lstrip_last s c : last (lstrip s) = Some c -> last s = Some c.
Proof.
  destruct (lstrip_suffix s) as [p Hp]. intros H. rewrite Hp, last_app. by rewrite H.
Qed.

Lemma lstrip_keeps (P : N -> Prop) s : Forall P s -> Forall P (lstrip s).
Proof.
  destruct (lstrip_suffix s) as [p Hp]. intros H. rewrite Hp in H.
  by apply Forall_app in H as [_ H].
Qed.

Lemma rstrip_last s c : last (rstrip s) = Some c -> is_space c = false.
Proof.
  unfold rstrip. rewrite rev_is_reverse, last_reverse. apply lstrip_head.
Qed.

Lemma rstrip_keeps (P : N -> Prop) s : Forall P s -> Forall P (rstrip s).
Proof.
  intros H. unfold rstrip. rewrite !rev_is_reverse.
  by apply Forall_reverse, lstrip_keeps, Forall_reverse.
Qed.

Lemma strip_trimmed s : strip s <> [] -> trimmed (strip s).
Proof.
  intros Hne. split; [done|]. split; unfold strip.
  - apply lstrip_head.
  - intros c Hc. apply lstrip_last in Hc. by eapply rstrip_last.
Qed.

Lemma strip_keeps (P : N -> Prop) s : Forall P s -> Forall P (strip s).
Proof. intros H. by apply lstrip_keeps, rstrip_keeps. Qed.

Lemma splitlines_from_one_line s :
  forall cur, one_line cur -> Forall one_line (splitlines_from cur s).
Proof.
  remember (length s) as n eqn:Hn. revert s Hn.
  induction n as [n IH] using lt_wf_ind. intros s Hn cur Hcur.
  assert (Hrev : one_line (rev cur)).
  { unfold one_line. rewrite rev_is_reverse. by apply Forall_reverse. }
  destruct s as [|c rest]; simpl.
  - destruct cur; [done|]. by constructor.
  - destruct (is_linebreak c) eqn:Hc.
    + constructor; [done|]. simpl in Hn.
      destruct rest as [|c' rest'].
      * apply (IH 0%nat); [lia|done|constructor].
      * destruct ((c =? 13) && (c' =? 10))%N.
        -- apply (IH (length rest')); [simpl in *; lia|done|constructor].
        -- apply (IH (length (c' :: rest'))); [simpl in *; lia|done|constructor].
    + apply (IH (length rest)); [simpl in *; lia|done|by constructor].
Qed.

Lemma questions_forall qs_text :
  Forall (fun q => trimmed q /\ one_line q) (questions qs_text).
Proof.
  unfold questions. rewrite upto_take by lia.
  apply Forall_take. unfold stripped_questions.
  apply Forall_forall. intros q Hq.
  apply list_elem_of_In, in_map_iff in Hq as (line & <- & Hline).
  apply filter_In in Hline as [Hline Htruthy]. split.
  - apply strip_trimmed. by destruct (strip line).
  - apply strip_keeps.
    pose proof (splitlines_from_one_line qs_text [] ltac:(constructor)) as Hall.
    rewrite Forall_forall in Hall. apply Hall. by apply list_elem_of_In.
Qed.

Lemma lstrip_split s : exists p, s = p ++ lstrip s /\ blank p.
Proof.
  induction s as [|a s (p & IH & Hp)]; simpl; [exists []; by split; [|constructor]|].
  destruct (is_space a) eqn:Ha; [|exists []; by split; [|constructor]].
  exists (a :: p). split; [simpl; by f_equal|by constructor].
Qed.

Lemma lstrip_blank s : blank s -> lstrip s = [].
Proof. induction 1 as [|a s Ha _ IH]; simpl; [done|]. by rewrite Ha. Qed.

Lemma strip_split s :
  exists pre post, s = pre ++ strip s ++ post /\ blank pre /\ blank post.
Proof.
  destruct (lstrip_split (rev s)) as (p & Hp & Hbp).
  destruct (lstrip_split (rstrip s)) as (pre & Hpre & Hbpre).
  exists pre, (rev p). split; [|split; [done|]].
  - rewrite app_assoc. unfold strip. rewrite <- Hpre. unfold rstrip.
    rewrite <- rev_app_distr, <- Hp. by rewrite rev_involutive.
  - unfold blank. rewrite rev_is_reverse. by apply Forall_reverse.
Qed.

Lemma strip_blank s : blank s -> strip s = [].
Proof. intros H. unfold strip. by apply lstrip_blank, rstrip_keeps. Qed.

Lemma non_blank_false s : non_blank s = false -> blank s.
Proof.
  unfold non_blank. induction s as [|a s IH]; simpl; [constructor|].
  intros [Ha Hs]%orb_false_iff. constructor; [by destruct (is_space a)|by apply IH].
Qed.

Lemma non_blank_true s : non_blank s = true -> strip s <> [].
Proof.
  intros Hs Hstrip. destruct (strip_split s) as (pre & post & E & Hpre & Hpost).
  rewrite Hstrip in E. simpl in E. unfold non_blank in Hs.
  apply existsb_exists in Hs as (c & Hin & Hc).
  assert (Hall : blank s) by (rewrite E; by apply Forall_app).
  unfold blank in Hall. rewrite List.Forall_forall in Hall.
  rewrite (Hall c Hin) in Hc. done.
Qed.

Lemma truthy_strip line : truthy (strip line) = non_blank line.
Proof.
  destruct (non_blank line) eqn:E.
  - apply non_blank_true in E. by destruct (strip line).
  - by rewrite (strip_blank _ (non_blank_false _ E)).
Qed.

Lemma strip_stripped_of line : non_blank line = true -> stripped_of line (strip line).
Proof.
  intros H. split; [by apply strip_trimmed, non_blank_true|apply strip_split].
Qed.

Lemma splitlines_from_lines s :
  forall cur pre,
    one_line cur ->
    (forall c, last pre = Some c -> is_linebreak c = true) ->
    Forall (line_of (pre ++ rev cur ++ s)) (splitlines_from cur s).
Proof.
  remember (length s) as n eqn:Hn. revert s Hn.
  induction n as [n IH] using lt_wf_ind. intros s Hn cur pre Hcur Hpre.
  assert (Hrev : one_line (rev cur)).
  { unfold one_line. rewrite rev_is_reverse. by apply Forall_reverse. }
  assert (Hline : forall after,
            (forall c, head after = Some c -> is_linebreak c = true) ->
            line_of (pre ++ rev cur ++ after) (rev cur)).
  { intros after Hafter. split; [done|]. by exists pre, after. }
  destruct s as [|c rest]; cbn [splitlines_from].
  - destruct cur as [|a cur']; [constructor|].
    constructor; [|constructor]. by apply Hline.
  - destruct (is_linebreak c) eqn:Hc.
    + constructor; [apply Hline; simpl; by intros ? [= <-]|].
      assert (Hnext : forall sep tail,
                c :: rest = sep ++ tail -> (length tail < n)%nat ->
                (forall c', last (pre ++ rev cur ++ sep) = Some c' ->
                            is_linebreak c' = true) ->
                Forall (line_of (pre ++ rev cur ++ c :: rest)) (splitlines_from [] tail)).
      { intros sep tail E Hlt Hlast. rewrite E.
        replace (pre ++ rev cur ++ sep ++ tail)
          with ((pre ++ rev cur ++ sep) ++ rev [] ++ tail)
          by (simpl; by rewrite <- !app_assoc).
        apply (IH (length tail)); [done|done|constructor|done]. }
      simpl in Hn. destruct rest as [|c' rest'].
      * apply (Hnext [c] []); [done|simpl; lia|].
        intros c0. rewrite !last_app. simpl. by intros [= <-].
      * destruct ((c =? 13) && (c' =? 10))%N eqn:Hcrlf.
        -- apply (Hnext [c; c'] rest'); [done|simpl in *; lia|].
           intros c0. rewrite !last_app. simpl. intros [= <-].
           apply andb_true_iff in Hcrlf as [_ ->%N.eqb_eq]. done.
        -- apply (Hnext [c] (c' :: rest')); [done|simpl in *; lia|].
           intros c0. rewrite !last_app. simpl. by intros [= <-].
    + replace (pre ++ rev cur ++ c :: rest) with (pre ++ rev (c :: cur) ++ rest)
        by (simpl; by rewrite <- !app_assoc).
      apply (IH (length rest)); [simpl in *; lia|done|by constructor|done].
Qed.

Lemma splitlines_from_concat s :
  forall cur,
    concat (splitlines_from cur s)
    = rev cur ++ List.filter (fun c => negb (is_linebreak c)) s.
Proof.
  remember (length s) as n eqn:Hn. revert s Hn.
  induction n as [n IH] using lt_wf_ind. intros s Hn cur.
  destruct s as [|c rest]; cbn [splitlines_from List.filter].
  - destruct cur; [done|]. cbn [concat]. by rewrite !app_nil_r.
  - destruct (is_linebreak c) eqn:Hc; cbn [negb].
    + cbn [concat]. f_equal. simpl in Hn. destruct rest as [|c' rest'].
      * by rewrite (IH 0%nat) by (done || lia).
      * destruct ((c =? 13) && (c' =? 10))%N eqn:Hcrlf.
        -- apply andb_true_iff in Hcrlf as [_ ->%N.eqb_eq].
           rewrite (IH (length rest')) by (done || simpl in *; lia). done.
        -- by rewrite (IH (length (c' :: rest'))) by (done || simpl in *; lia).
    + rewrite (IH (length rest)) by (done || simpl in *; lia).
      simpl. by rewrite <- app_assoc.
Qed.

Lemma questions_stripped lines :
  Forall2 stripped_of (take 5 (List.filter non_blank lines))
    (take 5 (map strip (List.filter non_blank lines))).
Proof.
  change (map strip) with (fmap (M := list) strip). rewrite <- fmap_take.
  apply Forall2_fmap_r, Forall_Forall2_diag, Forall_take.
  apply List.Forall_forall. intros line [_ Hline]%filter_In.
  by apply strip_stripped_of.
Qed.

(** X8: the questions of a run are, in order, the first five lines of the
    text box that hold something other than white space, each without
    the white space at its two ends.  So there are at most five, each is
    non-empty, starts and ends with a character that is no white space
    and holds no line boundary.  The lines are those of the text box:
    each is a piece of the text between two line boundaries (or an end
    of the text), and together they hold every character of the text
    that is no line boundary, in order. *)
Theorem questions_wellformed qs_text :
  (length (questions qs_text) <= 5)%nat
  /\ Forall (fun q => trimmed q /\ one_line q) (questions qs_text)
  /\ Forall2 stripped_of (take 5 (List.filter non_blank (splitlines qs_text)))
       (questions qs_text)
  /\ Forall (line_of qs_text) (splitlines qs_text)
  /\ concat (splitlines qs_text)
     = List.filter (fun c => negb (is_linebreak c)) qs_text.
Proof.
  split; [|split; [apply questions_forall|split; [|split]]].
  - unfold questions. rewrite upto_take by lia. rewrite length_take. lia.
  - unfold questions, stripped_questions. rewrite upto_take by lia.
    rewrite (filter_ext (fun q => truthy (strip q)) non_blank) by apply truthy_strip.
    apply questions_stripped.
  - apply (splitlines_from_lines qs_text [] []); [constructor|done].
  - apply (splitlines_from_concat qs_text []).
Qed.

(** ** The block of questions *)

Lemma decimal_one_line n : one_line (decimal n).
Proof.
  unfold decimal, lit, one_line. destruct (Z.to_int n) as [d|d]; simpl.
  - induction d; simpl; by constructor.
  - constructor; [done|]. induction d; simpl; by constructor.
Qed.

Lemma splitlines_from_line line cur rest :
  one_line line ->
  splitlines_from cur (line ++ rest) = splitlines_from (rev line ++ cur) rest.
Proof.
  intros H. revert cur. induction H as [|c line Hc _ IH]; intros cur; [done|].
  simpl. rewrite Hc, IH. by rewrite <- app_assoc.
Qed.

Lemma splitlines_join ls :
  Forall (fun l => l <> [] /\ one_line l) ls -> splitlines (join nl ls) = ls.
Proof.
  unfold splitlines. induction 1 as [|l ls [Hne Hl] Hls IH]; [done|].
  destruct ls as [|l2 ls].
  - simpl. rewrite <- (app_nil_r l) at 1. rewrite splitlines_from_line by done.
    simpl. rewrite app_nil_r. destruct (rev l) eqn:E.
    + apply (f_equal (@rev N)) in E. rewrite rev_involutive in E. by destruct Hne.
    + by rewrite <- E, rev_involutive.
  - change (join nl (l :: l2 :: ls)) with (l ++ nl ++ join nl (l2 :: ls)).
    rewrite splitlines_from_line by done. rewrite app_nil_r.
    change (nl ++ join nl (l2 :: ls)) with (10%N :: join nl (l2 :: ls)).
    set (J := join nl (l2 :: ls)) in *.
    simpl. rewrite rev_involutive. f_equal. by destruct J.
Qed.

Lemma numbered_lines qs :
  Forall one_line qs -> Forall (fun l => l <> [] /\ one_line l) (numbered qs).
Proof.
  intros H. apply Forall_lookup. intros i l Hl.
  unfold numbered in Hl. rewrite list_lookup_imap in Hl.
  apply fmap_Some in Hl as (q & Hq & ->).
  split; [done|]. unfold one_line.
  rewrite !Forall_app. split; [by repeat constructor|].
  split; [apply decimal_one_line|]. split; [by repeat constructor|].
  by eapply Forall_lookup_1.
Qed.

(** X9: the block of questions sent to the synthesis call has exactly
    one line per question of the run, the line [Qi. question]: splitting
    the block into lines gives the numbered questions back, at most five
    of them. *)
Theorem q_block_lines qs_text :
  splitlines (q_block (questions qs_text)) = numbered (questions qs_text)
  /\ (length (splitlines (q_block (questions qs_text))) <= 5)%nat.
Proof.
  assert (H : splitlines (q_block (questions qs_text)) = numbered (questions qs_text)).
  { apply splitlines_join, numbered_lines.
    eapply Forall_impl; [apply questions_forall|]. by intros q [_ ?]. }
  split; [exact H|]. rewrite H. unfold numbered. rewrite length_imap.
  unfold questions. rewrite upto_take by lia. rewrite length_take. lia.
Qed.

(** ** Dictionaries built by the script *)

Lemma dict_lookup_set_eq {V} k (v : V) d : dict_lookup k (dict_set k v d) = Some v.
Proof.
  induction d as [|[k' v'] d IH]; simpl.
  - by rewrite decide_True.
  - destruct (decide (k = k')) as [->|Hne]; simpl.
    + by rewrite decide_True.
    + by rewrite decide_False.
Qed.

Lemma dict_lookup_set_ne {V} k k' (v : V) d :
  k <> k' -> dict_lookup k' (dict_set k v d) = dict_lookup k' d.
Proof.
  intros Hne. induction d as [|[k0 v0] d IH]; simpl.
  - by rewrite decide_False by done.
  - destruct (decide (k = k0)) as [->|Hk]; simpl.
    + by rewrite !decide_False by done.
    + destruct (decide (k' = k0)); [done|exact IH].
Qed.

Lemma dict_lookup_absent {V} k (d : list (pystr * V)) :
  k ∉ map fst d -> dict_lookup k d = None.
Proof.
  induction d as [|[k' v'] d IH]; simpl; [done|]. intros Hk.
  apply not_elem_of_cons in Hk as [Hne Hk]. rewrite decide_False by done. by apply IH.
Qed.

Lemma dict_set_new {V} k (v : V) d : k ∉ map fst d -> dict_set k v d = d ++ [(k, v)].
Proof.
  induction d as [|[k' v'] d IH]; simpl; [done|]. intros Hk.
  apply not_elem_of_cons in Hk as [Hne Hk]. rewrite decide_False by done.
  by rewrite IH.
Qed.

(** Unpacking a dictionary into another: its items win. *)
Lemma dict_lookup_update {V} k (items d : list (pystr * V)) :
  NoDup (map fst items) ->
  dict_lookup k (fold_left (fun d kv => dict_set (fst kv) (snd kv) d) items d)
  = match dict_lookup k items with
    | Some v => Some v
    | None => dict_lookup k d
    end.
Proof.
  revert d. induction items as [|[k1 v1] items IH]; intros d Hnd; [done|].
  apply NoDup_cons in Hnd as [Hk1 Hnd]. simpl. rewrite IH by done.
  destruct (decide (k = k1)) as [->|Hne].
  - rewrite (dict_lookup_absent k1 items Hk1). apply dict_lookup_set_eq.
  - destruct (dict_lookup k items); [done|]. by apply dict_lookup_set_ne.
Qed.

(** X10: the entry that [st.json] shows for a summarised thread always
    carries the thread's own url, even when the summary has a [url] key;
    every other key shows the summary's value, and [title] shows the
    thread's title only when the summary has no [title] of its own.  A
    thread without summary raises [KeyError], a summary that is not a
    mapping raises [TypeError]. *)
Theorem preview_keys t :
  (Thread.summary t = None -> preview t = Raise (KeyError "summary"))
  /\ (forall v, Thread.summary t = Some v -> (forall items, v <> JObj items) ->
        preview t = Raise TypeError)
  /\ (forall items, Thread.summary t = Some (JObj items) -> NoDup (map fst items) ->
        exists d,
          preview t = Ok (JObj d)
          /\ dict_lookup (lit "url") d = Some (JStr (Thread.url t))
          /\ forall k, k <> lit "url" ->
               dict_lookup k d
               = match dict_lookup k items with
                 | Some v => Some v
                 | None => if decide (k = lit "title")
                           then Some (JStr (Thread.title t)) else None
                 end).
Proof.
  unfold preview. split; [by intros ->|]. split.
  - intros v -> Hnot. destruct v; try done. by destruct (Hnot items).
  - intros items -> Hnd. eexists. split; [reflexivity|]. split.
    + apply dict_lookup_set_eq.
    + intros k Hk. rewrite dict_lookup_set_ne by done.
      rewrite dict_lookup_update by done.
      by destruct (dict_lookup k items).
Qed.

(** ** The payload of a batch *)

Lemma upto_length {A} (n : Z) (l : list A) : 0 <= n -> len (upto n l) <= n.
Proof. intros Hn. rewrite upto_take by done. unfold len. rewrite length_take. lia. Qed.

Lemma build_payload_from d ts :
  NoDup (map fst d ++ map Thread.id ts) ->
  fold_left (fun d t => dict_set (Thread.id t) (JStr (payload_text t)) d) ts d
  = d ++ map (fun t => (Thread.id t, JStr (payload_text t))) ts.
Proof.
  revert d. induction ts as [|t ts IH]; intros d Hnd; simpl; [by rewrite app_nil_r|].
  assert (Hnew : Thread.id t ∉ map fst d).
  { apply NoDup_app in Hnd as (_ & Hdis & _). intros Hin. apply (Hdis _ Hin). by left. }
  rewrite dict_set_new by done. rewrite IH.
  - by rewrite <- app_assoc.
  - rewrite map_app, <- app_assoc. exact Hnd.
Qed.

(** X11: for a batch whose threads have pairwise distinct ids, the
    payload has exactly one item per thread, in the order of the batch,
    mapping the id to the text of that thread; and the text of a thread
    never holds more than its title plus 10014 characters (4000 of the
    body, 6000 of the comments, 14 of framing). *)
Theorem build_payload_distinct ts :
  NoDup (map Thread.id ts) ->
  build_payload ts = map (fun t => (Thread.id t, JStr (payload_text t))) ts
  /\ Forall (fun t => len (payload_text t) <= len (Thread.title t) + 10014) ts.
Proof.
  intros Hnd. split.
  - unfold build_payload. by rewrite build_payload_from.
  - apply Forall_forall. intros t _. unfold payload_text.
    pose proof (upto_length 4000 (Thread.body t) ltac:(lia)).
    pose proof (upto_length 6000 (Thread.comments t) ltac:(lia)).
    unfold len in *. rewrite !length_app.
    change (length nl) with 1%nat. change (length (lit "Comments:")) with 9%nat. lia.
Qed.

(** ** [fetch_threads] *)

Lemma fetch_loop posts :
  Forall (fun p => exists bodies, post_comments p = Ok bodies) posts ->
  forall acc w,
    for_fold fetch_post acc posts w
    = (Ok (acc ++ seq (length (heap w)) (length posts)),
       {| heap := heap w ++ map (fun p => fetched_thread p (comment_bodies p)) posts;
          trace := trace w ++ replicate (length posts) TimerCb |}).
Proof.
  induction 1 as [|p posts [bodies Hp] _ IH]; intros acc w; simpl.
  - rewrite !app_nil_r. by destruct w.
  - unfold bind at 1. unfold fetch_post at 1. rewrite Hp.
    unfold bind, lift, alloc, emit, ret. simpl. rewrite IH. simpl.
    rewrite length_app. simpl. rewrite Nat.add_1_r.
    unfold comment_bodies at 2. rewrite Hp.
    by rewrite <- !app_assoc.
Qed.

(** X12: when the listing ends normally and every comment tree expands,
    [fetch_threads] returns one new thread per post, in the order of the
    listing: the references are fresh and pairwise distinct, the threads
    already in the store are untouched, each new thread carries the
    fields of its post and no [summary], and the timer callback ran once
    per post. *)
Theorem fetch_threads_result sub limit w posts :
  reddit_new (trace w ++ [RedditNew sub limit]) sub limit = (posts, None) ->
  Forall (fun p => exists bodies, post_comments p = Ok bodies) posts ->
  fetch_threads sub limit w
  = (Ok (seq (length (heap w)) (length posts)),
     {| heap := heap w ++ map (fun p => fetched_thread p (comment_bodies p)) posts;
        trace := trace w ++ RedditNew sub limit :: replicate (length posts) TimerCb |})
  /\ NoDup (seq (length (heap w)) (length posts)).
Proof.
  intros Hlist Hposts. split; [|apply NoDup_seq].
  unfold fetch_threads, bind at 1 2, emit, get_trace. simpl. rewrite Hlist. simpl.
  unfold bind. rewrite (fetch_loop posts Hposts). simpl.
  unfold ret. by rewrite <- app_assoc.
Qed.

(** X13: an exception that ends the listing, or that the expansion of a
    comment tree raises, leaves [fetch_threads] by the same exception:
    the threads built so far stay in the store but no list is returned,
    and the posts after the failing one are not read. *)
Theorem fetch_threads_failure sub limit w pre :
  Forall (fun p => exists bodies, post_comments p = Ok bodies) pre ->
  (forall e, reddit_new (trace w ++ [RedditNew sub limit]) sub limit = (pre, Some e) ->
     fetch_threads sub limit w
     = (Raise e,
        {| heap := heap w ++ map (fun p => fetched_thread p (comment_bodies p)) pre;
           trace := trace w ++ RedditNew sub limit :: replicate (length pre) TimerCb |}))
  /\ (forall e bad rest ending,
        reddit_new (trace w ++ [RedditNew sub limit]) sub limit
        = (pre ++ bad :: rest, ending) ->
        post_comments bad = Raise e ->
        fetch_threads sub limit w
        = (Raise e,
           {| heap := heap w ++ map (fun p => fetched_thread p (comment_bodies p)) pre;
              trace := trace w ++ RedditNew sub limit :: replicate (length pre) TimerCb |})).
Proof.
  intros Hpre. split.
  - intros e Hlist.
    unfold fetch_threads, bind at 1 2, emit, get_trace. simpl. rewrite Hlist. simpl.
    unfold bind. rewrite (fetch_loop pre Hpre). simpl.
    unfold raise. by rewrite <- app_assoc.
  - intros e bad rest ending Hlist Hbad.
    assert (Hloop : forall acc w0,
              for_fold fetch_post acc (pre ++ bad :: rest) w0
              = (Raise e,
                 {| heap := heap w0 ++ map (fun p => fetched_thread p (comment_bodies p)) pre;
                    trace := trace w0 ++ replicate (length pre) TimerCb |})).
    { clear Hlist. induction Hpre as [|p pre [bodies Hp] _ IH]; intros acc w0; simpl.
      - unfold bind, fetch_post, bind, lift. rewrite Hbad. rewrite !app_nil_r.
        by destruct w0.
      - unfold bind at 1. unfold fetch_post at 1. rewrite Hp.
        unfold bind, lift, alloc, emit, ret. simpl. rewrite IH. simpl.
        unfold comment_bodies at 2. rewrite Hp. by rewrite <- !app_assoc. }
    unfold fetch_threads, bind at 1 2, emit, get_trace. simpl. rewrite Hlist. simpl.
    unfold bind. rewrite Hloop. simpl. by rewrite <- app_assoc.
Qed.

(** ** A run never reaches its last line *)

Lemma never_returns_bind_l {S A B} (m : Comp S A) (k : A -> Comp S B) :
  never_returns m -> never_returns (bind m k).
Proof.
  intros Hm s. destruct (Hm s) as [e He]. unfold bind.
  destruct (m s) as [[a|e'] s']; simpl in *; [done|]. by exists e'.
Qed.

Lemma never_returns_bind_r {S A B} (m : Comp S A) (k : A -> Comp S B) :
  (forall a, never_returns (k a)) -> never_returns (bind m k).
Proof.
  intros Hk s. unfold bind. destruct (m s) as [[a|e] s']; [apply Hk|by exists e].
Qed.

Lemma download_section_never_returns report_md :
  never_returns (download_section report_md names_before_download).
Proof.
  intros w. unfold download_section. cbv zeta.
  fold names_at_build_pdf_call. rewrite load_txt_buf, load_PDF.
  change (load_name "build_pdf" names_at_build_pdf_call)
    with (@Raise unit (NameError "build_pdf")).
  unfold bind, emit, lift, with_new_pdf. simpl.
  destruct (export_pdf report_md FPDF_new) as [[b|e] s]; simpl; eauto.
Qed.

(** X14: no click on the run button leads to a run that returns: either
    a guard stops it, or a stage raises, or the run comes to the call of
    [build_pdf], whose name is unbound; the timer callback of the last
    line is therefore never run. *)
Theorem run_research_never_returns genre_input subreddit n_posts qs_text :
  never_returns (run_research genre_input subreddit n_posts qs_text).
Proof.
  unfold run_research. apply never_returns_bind_r. intros _. unfold pipeline.
  do 10 (apply never_returns_bind_r; intros ?).
  apply never_returns_bind_l, download_section_never_returns.
Qed.

(** ** The password gate *)

Lemma gate_runs_authenticated inputs :
  gate_runs (Some true) inputs = (true, map (fun _ => GatePassed) inputs).
Proof.
  induction inputs as [|[pwd submit] inputs IH]; [done|].
  simpl. by rewrite IH.
Qed.

Lemma gate_accepts pwd pwd' submit' session :
  pwd ∈ accepted_passwords ->
  session = None \/ session = Some false ->
  gate_runs session [(pwd, true); (pwd', submit')] = (true, [GateRerun; GatePassed]).
Proof.
  intros Hpwd Hs.
  assert (H1 : password_gate session pwd true = (true, GateRerun)).
  { unfold password_gate. destruct Hs as [-> | ->]; cbv beta iota zeta;
      by rewrite bool_decide_eq_true_2. }
  cbn [gate_runs]. cbv zeta. by rewrite H1.
Qed.

(** X15: in a session that starts without the flag, as long as no
    submitted password is one of the two accepted ones, every run of the
    script stops at the gate and the flag stays unset; once the flag is
    set, every later run passes the gate (the script never clears it);
    and submitting an accepted password sets the flag and asks for a
    rerun, which passes the gate. *)
Theorem gate_keeps_out inputs :
  (Forall (fun i => snd i = true -> fst i ∉ accepted_passwords) inputs ->
   forall session, session = None \/ session = Some false ->
     fst (gate_runs session inputs) = false
     /\ Forall (fun o => exists error, o = GateStopped error)
          (snd (gate_runs session inputs)))
  /\ gate_runs (Some true) inputs = (true, map (fun _ => GatePassed) inputs)
  /\ (forall pwd pwd' submit' session,
        pwd ∈ accepted_passwords -> session = None \/ session = Some false ->
        gate_runs session [(pwd, true); (pwd', submit')]
        = (true, [GateRerun; GatePassed])).
Proof.
  split; [|split; [apply gate_runs_authenticated|apply gate_accepts]].
  induction 1 as [|[pwd submit] inputs Hi _ IH]; intros session Hs.
  - split; [by destruct Hs as [-> | ->]|constructor].
  - simpl in Hi.
    assert (Hgate : password_gate session pwd submit
                    = (false, GateStopped
                                (if submit then Some (lit "Incorrect password.") else None))).
    { unfold password_gate. destruct Hs as [-> | ->]; cbv beta iota zeta;
        destruct submit; [|done| |done]; by rewrite bool_decide_eq_false_2 by auto. }
    simpl. rewrite Hgate. simpl.
    destruct (IH (Some false) ltac:(by right)) as [Hflag Hall].
    split; [done|]. constructor; [by eexists|done].
Qed.


(** ** The elapsed-time display *)

Lemma format_02d_two_digits n : 0 <= n < 100 -> format_02d n = two_digits n.
Proof.
  intros Hn. rewrite <- (Z2Nat.id n) by lia.
  assert (Hk : (Z.to_nat n < 100)%nat) by lia.
  generalize dependent (Z.to_nat n). clear. intros k Hk.
  do 100 (destruct k as [|k]; [vm_compute; reflexivity|]). lia.
Qed.

(** X16: for an elapsed time from zero up to one hundred minutes the
    ticker shows the stopwatch sign, a space, and the whole minutes and
    the remaining seconds, each as two decimal digits, with a colon
    between them; the seconds shown are always below sixty. *)
Theorem tick_text_clock elapsed :
  (0 <= elapsed)%Q -> (elapsed < 6000)%Q ->
  tick_text elapsed
  = [9201; 65039; 32]%N ++ two_digits (Qfloor elapsed / 60) ++ [58%N]
    ++ two_digits (Qfloor elapsed mod 60)
  /\ 0 <= Qfloor elapsed mod 60 < 60
  /\ 60 * (Qfloor elapsed / 60) + Qfloor elapsed mod 60 = Qfloor elapsed.
Proof.
  intros H0 H1.
  assert (Hint : py_int elapsed = Qfloor elapsed).
  { unfold py_int. by rewrite (proj2 (Qle_bool_iff 0 elapsed) H0). }
  assert (Hlo : 0 <= Qfloor elapsed).
  { change 0 with (Qfloor 0). by apply Qfloor_resp_le. }
  assert (Hhi : Qfloor elapsed < 6000).
  { rewrite Zlt_Qlt. eapply Qle_lt_trans; [apply Qfloor_le|exact H1]. }
  pose proof (Z.mod_pos_bound (Qfloor elapsed) 60 ltac:(lia)) as Hmod.
  pose proof (Z.div_mod (Qfloor elapsed) 60 ltac:(lia)) as Hdm.
  split; [|split; [done|lia]].
  unfold tick_text. rewrite Hint. cbv zeta.
  rewrite !format_02d_two_digits; [done|lia|].
  split; [apply Z.div_pos; lia|]. apply Z.div_lt_upper_bound; lia.
Qed.

(** ** The range of the fractions *)

Lemma fraction_zero (t : Z) : Qred (inject_Z 0 / inject_Z t) = 0%Q.
Proof.
  change 0%Q with (Qred 0). apply Qred_complete. unfold Qdiv. apply Qmult_0_l.
Qed.

(** X17: every completion fraction that a returning run of
    [summarise_threads] (batch size at least one) hands to the progress
    bar lies above 0 and is at most 1, the range the progress bar
    accepts. *)
Theorem fractions_in_range threads model batch w w' :
  1 <= batch ->
  summarise_threads threads model batch w = (Ok tt, w') ->
  Forall (fun q => (0 < q)%Q /\ (q <= 1)%Q) (fractions (events_since w w')).
Proof.
  intros Hb H.
  destruct (summarise_threads_ok threads model batch w w' Hb H) as (_ & Hf & _).
  rewrite Hf. clear H Hf. apply Forall_forall. intros q Hq.
  apply list_elem_of_fmap_1 in Hq as (k & -> & Hk%elem_of_seq).
  set (n := Z.to_nat (range_length 0 (len threads) batch)) in *.
  set (B := Z.to_nat batch).
  assert (HL : (0 < length threads)%nat).
  { destruct threads; [|simpl; lia]. exfalso. unfold n in Hk.
    change (len []) with 0 in Hk. rewrite range_length_ceiling in Hk by lia.
    rewrite Z.div_small in Hk by lia. simpl in Hk. lia. }
  assert (Hpos : 0 < len (take (S k * B) threads) <= len threads).
  { unfold len. rewrite length_take. unfold B. simpl. lia. }
  split.
  - rewrite <- (fraction_zero (len threads)). apply fraction_lt; unfold len in *; lia.
  - destruct (Z.eq_dec (len (take (S k * B) threads)) (len threads)) as [->|Hne].
    + rewrite fraction_one by (unfold len; lia). apply Qle_refl.
    + rewrite <- (fraction_one (len threads)) by (unfold len; lia).
      apply Qlt_le_weak, fraction_lt; unfold len in *; lia.
Qed.
End App.

(** * Instances *)

(** ** The library functions on examples *)

Example splitlines_blank_line :
  splitlines (lit "a" ++ nl ++ nl ++ lit "b") = [lit "a"; []; lit "b"].
Proof. reflexivity. Qed.

Example splitlines_crlf :
  splitlines (lit "a" ++ [13; 10]%N ++ lit "b" ++ [13]%N) = [lit "a"; lit "b"].
Proof. reflexivity. Qed.

Example splitlines_empty : splitlines [] = [].
Proof. reflexivity. Qed.

Example strip_both_ends : strip (lit "  a b " ++ [9]%N) = lit "a b".
Proof. reflexivity. Qed.

Example questions_first_five :
  questions (lit "q1" ++ nl ++ nl ++ lit "  q2 " ++ nl ++ lit "q3" ++ nl ++ lit "q4"
             ++ nl ++ lit "   " ++ nl ++ lit "q5" ++ nl ++ lit "q6" ++ nl ++ lit "q7")
  = [lit "q1"; lit "q2"; lit "q3"; lit "q4"; lit "q5"].
Proof. reflexivity. Qed.

Example questions_blank : questions (lit "  " ++ nl ++ nl ++ [9]%N) = [].
Proof. reflexivity. Qed.

Example range_12_6 : py_range 0 12 6 = Ok [0; 6].
Proof. reflexivity. Qed.

Example range_13_6 : py_range 0 13 6 = Ok [0; 6; 12].
Proof. reflexivity. Qed.

Example range_zero_step : py_range 0 12 0 = Raise ValueError.
Proof. reflexivity. Qed.

Example range_negative_step : py_range 0 12 (-6) = Ok [].
Proof. reflexivity. Qed.

Example slice_clamped : py_slice [1; 2; 3; 4; 5]%nat 3 9 = [4; 5]%nat.
Proof. reflexivity. Qed.

Example slice_from_end : py_slice [1; 2; 3; 4; 5]%nat (-2) 5 = [4; 5]%nat.
Proof. reflexivity. Qed.

Example truediv_by_zero : py_truediv 0 0 = Raise ZeroDivisionError.
Proof. reflexivity. Qed.

Example q_block_two :
  q_block [lit "Why?"; lit "How?"] = lit "Q1. Why?" ++ nl ++ lit "Q2. How?".
Proof. reflexivity. Qed.

(** A corpus of 20016 characters is cut to 15000. *)
Example corpus_cut :
  let t := {| Thread.id := lit "t0"; Thread.title := replicate (Z.to_nat 20000) 97%N;
              Thread.body := []; Thread.comments := []; Thread.url := lit "u";
              Thread.created := [];
              Thread.summary := Some (JObj [(lit "gist", JStr (lit "gist"))]) |} in
  (len <$> match joined_corpus sample_format [t] with Ok s => Some s | _ => None end)
    = Some 20016
  /\ build_corpus sample_format [t] = Ok (replicate (Z.to_nat 15000) 97%N).
Proof. vm_compute. by split. Qed.

Example text_export_sample :
  served_bytes sample_encode (text_export (lit "ok")) = omap Byte.of_N (lit "ok").
Proof. reflexivity. Qed.

(** The download section with the sample collaborators: the text and the
    first PDF are offered, then the name [build_pdf] is not found. *)
Example download_section_sample :
  download_section (list pystr) sample_new sample_set_font sample_set_y
    sample_page_no sample_cell sample_multi_cell sample_add_page
    sample_set_auto_page_break sample_output sample_output_S sample_unidecode
    (lit "ok") names_before_download {| heap := []; trace := [] |}
  = (Raise (NameError "build_pdf"),
     {| heap := [];
        trace := [ StMarkdown (lit "## " ++ [128229%N] ++ lit " Download Report");
                   StDownloadButton ([128196%N] ++ lit " Download as .txt")
                     (DataStr (lit "ok"))
                     (lit "reddit_research_report.txt") (lit "text/plain");
                   StDownloadButton ([128216%N] ++ lit " Download as .pdf")
                     (DataBytes [])
                     (lit "reddit_research_report.pdf") (lit "application/pdf") ] |}).
Proof. vm_compute. reflexivity. Qed.

(** ** The properties at sample inputs *)

Lemma batches_concat_witness :
  exists bs, batches [1; 2; 3; 4; 5; 6; 7]%nat 3 = Ok bs
             /\ concat bs = [1; 2; 3; 4; 5; 6; 7]%nat
             /\ length (concat bs) = 7%nat.
Proof. apply (batches_concat [1; 2; 3; 4; 5; 6; 7]%nat 3). lia. Defined.

(** Twelve threads in batches of six: two calls, fractions 1/2 and 1. *)
Lemma summarise_threads_progress_witness :
  let w' := snd (summarise_threads sample_chat sample_loads sample_dumps sample_random
                   sample_threads (lit "o3") 6 sample_world) in
  increasing (fractions (events_since sample_world w'))
  /\ last (fractions (events_since sample_world w')) = Some 1%Q
  /\ (length sample_threads = 12%nat -> 6 = 6 ->
      length (model_calls (events_since sample_world w')) = 2%nat
      /\ fractions (events_since sample_world w') = [1 # 2; 1]%Q).
Proof.
  apply (summarise_threads_progress sample_chat sample_loads sample_dumps sample_random
           sample_threads (lit "o3") 6 sample_world).
  - discriminate.
  - lia.
  - vm_compute. reflexivity.
Defined.

Lemma corpus_truncation_witness :
  exists ts joined corpus,
    Forall2 (fun l t => heap sample_summarised !! l = Some t) [0; 1]%nat ts
    /\ joined_corpus sample_format ts = Ok joined
    /\ build_corpus sample_format ts = Ok corpus
    /\ (15000 < len joined ->
        corpus = take (Z.to_nat 15000) joined /\ len corpus = 15000)
    /\ (len joined <= 15000 -> corpus = joined)
    /\ model_calls
         (events_since sample_summarised
            (snd (generate_report sample_chat sample_format sample_title (lit "horror")
                    [0; 1]%nat [lit "Why?"] sample_summarised)))
       = [(lit "o3",
           [ {| role := lit "system"; content := analyst_prompt sample_title (lit "horror") |};
             {| role := lit "assistant";
                content := lit "CORPUS (" ++ decimal (len [0; 1]%nat) ++ lit " threads):"
                           ++ nl ++ corpus |};
             {| role := lit "user"; content := q_block [lit "Why?"] |} ])].
Proof.
  apply (corpus_truncation sample_chat sample_format sample_title (lit "horror")
           [0; 1]%nat [lit "Why?"] sample_summarised).
  intros l Hl.
  apply elem_of_cons in Hl as [->|Hl]; [eexists; split; [reflexivity|by eexists]|].
  apply elem_of_cons in Hl as [->|Hl]; [eexists; split; [reflexivity|by eexists]|].
  by apply elem_of_nil in Hl.
Defined.

(** Only the id [t0] is a key of the sample reply. *)
Lemma missing_id_gets_empty_summary_witness :
  exists w',
    summarise_batch sample_chat sample_loads sample_dumps sample_random
      sample_threads (len sample_threads) (lit "o3") 6 0 0 sample_world
    = (Ok (0 + len (py_slice sample_threads 0 (0 + 6))), w')
    /\ forall l t,
         l ∈ py_slice sample_threads 0 (0 + 6) ->
         heap sample_world !! l = Some t ->
         dict_lookup (Thread.id t) sample_items = None ->
         exists t', heap w' !! l = Some t' /\ Thread.summary t' = Some (JObj []).
Proof.
  apply (missing_id_gets_empty_summary sample_chat sample_loads sample_dumps sample_random
           sample_threads (lit "o3") 6 0 0 sample_world (lit "{}")
           (snd (request_summaries sample_chat sample_dumps sample_random sample_threads
                   (py_slice sample_threads 0 (0 + 6)) (lit "o3") sample_world))
           sample_items).
  - discriminate.
  - vm_compute. reflexivity.
  - reflexivity.
Defined.

(** The sample transliteration returns ASCII, so the dash of a report
    reaches the layout call as a hyphen. *)
Lemma sample_unidecode_ascii text :
  exists ascii_text,
    sample_unidecode text = Ok ascii_text /\ Forall (fun c => c < 128)%N ascii_text.
Proof.
  eexists. split; [reflexivity|].
  apply Forall_concat, Forall_map, Forall_forall. intros c _.
  unfold sample_transliterate. destruct (N.ltb_spec c 128) as [Hc|_].
  - by repeat constructor.
  - destruct (List.find _ sample_table) as [kv|] eqn:E; [|constructor].
    apply find_some in E as [Hin _].
    assert (Hall : Forall (fun kv => Forall (fun c => c < 128)%N (snd kv)) sample_table)
      by (vm_compute; repeat constructor).
    rewrite List.Forall_forall in Hall. by apply Hall.
Qed.

Example sample_unidecode_dash :
  sample_unidecode (lit "1" ++ [8211%N] ++ lit "2") = Ok (lit "1-2").
Proof. reflexivity. Qed.

(** A report that holds a dash is laid out with a hyphen in its place; no
    placeholder is needed. *)
Example chapter_body_dash :
  chapter_body (list pystr) sample_set_font sample_set_y sample_page_no sample_cell
    sample_multi_cell sample_unidecode (lit "1" ++ [8211%N] ++ lit "2") []
  = (Ok tt, [lit "1-2"]).
Proof. reflexivity. Qed.

(** Two questions among blank lines: each is its line without the white
    space around it. *)
Example questions_of_lines :
  let text := lit "  Why?  " ++ [13; 10]%N ++ lit "   " ++ nl ++ lit "How long?" in
  splitlines text = [lit "  Why?  "; lit "   "; lit "How long?"]
  /\ List.filter non_blank (splitlines text) = [lit "  Why?  "; lit "How long?"]
  /\ questions text = [lit "Why?"; lit "How long?"].
Proof. vm_compute. by repeat split. Qed.


Lemma summarise_threads_empty_witness :
  summarise_threads sample_chat sample_loads sample_dumps sample_random [] (lit "o3") 6
    {| heap := []; trace := [] |}
  = (Ok tt, {| heap := [];
               trace := [StatusMarkdown (lit "**Summarising complete!**")] |}).
Proof.
  refine (proj1 (summarise_threads_empty sample_chat sample_loads sample_dumps
                   sample_random (lit "o3") 6 {| heap := []; trace := [] |} _)).
  lia.
Defined.

(** ** The further properties at sample inputs *)

Lemma batch_sizes_witness :
  exists bs,
    batches [1; 2; 3; 4; 5; 6; 7]%nat 3 = Ok bs
    /\ len bs = (len [1; 2; 3; 4; 5; 6; 7]%nat + 3 - 1) / 3
    /\ Forall (fun c => 1 <= len c <= 3) bs
    /\ forall k c, bs !! k = Some c -> (S k < length bs)%nat -> len c = 3.
Proof. apply (batch_sizes [1; 2; 3; 4; 5; 6; 7]%nat 3). lia. Defined.


(** With a parser that rejects the reply, the first batch raises the
    parser's exception. *)
Lemma bad_reply_aborts_batch_witness :
  summarise_batch sample_chat sample_loads_broken sample_dumps sample_random
    sample_threads (len sample_threads) (lit "o3") 6 0 0 sample_world
  = (Raise (External 2),
     snd (request_summaries sample_chat sample_dumps sample_random sample_threads
            (py_slice sample_threads 0 (0 + 6)) (lit "o3") sample_world)).
Proof.
  refine (proj1 (proj2 (bad_reply_aborts_batch sample_chat sample_loads_broken
                          sample_dumps sample_random sample_threads (lit "o3") 6 0 0
                          sample_world (lit "{}") _ _)) (External 2) _).
  - vm_compute. reflexivity.
  - reflexivity.
Defined.

(** The fetched threads carry no summary yet. *)
Lemma generate_report_unsummarised_witness :
  exists e,
    generate_report sample_chat sample_format sample_title (lit "horror") [0]%nat
      [lit "Why?"] sample_world
    = (Raise e, sample_world)
    /\ (e = KeyError "summary" \/ e = AttributeError).
Proof.
  apply (generate_report_unsummarised sample_chat sample_format sample_title
           (lit "horror") [0]%nat [lit "Why?"] sample_world [sample_thread 0]).
  - by repeat constructor.
  - left. intros items. discriminate.
Defined.


Lemma build_payload_distinct_witness :
  build_payload [sample_thread 0; sample_thread 1]
  = map (fun t => (Thread.id t, JStr (payload_text t))) [sample_thread 0; sample_thread 1]
  /\ Forall (fun t => len (payload_text t) <= len (Thread.title t) + 10014)
       [sample_thread 0; sample_thread 1].
Proof.
  apply (build_payload_distinct [sample_thread 0; sample_thread 1]).
  apply (bool_decide_unpack _). by vm_compute.
Defined.

Lemma fetch_threads_result_witness :
  fetch_threads sample_reddit sample_utc_date (lit "horror") 10 {| heap := []; trace := [] |}
  = (Ok [0; 1]%nat,
     {| heap := [ fetched_thread sample_utc_date (sample_post 0)
                    [lit "First."; lit "Second."];
                  fetched_thread sample_utc_date (sample_post 1)
                    [lit "First."; lit "Second."] ];
        trace := [RedditNew (lit "horror") 10; TimerCb; TimerCb] |}).
Proof.
  refine (proj1 (fetch_threads_result sample_reddit sample_utc_date (lit "horror") 10
                   {| heap := []; trace := [] |} [sample_post 0; sample_post 1] _ _)).
  - reflexivity.
  - repeat constructor; by eexists.
Defined.

(** The second post fails: the first thread is in the store, the third
    post is not read. *)
Lemma fetch_threads_failure_witness :
  fetch_threads sample_reddit_broken sample_utc_date (lit "horror") 10
    {| heap := []; trace := [] |}
  = (Raise (External 3),
     {| heap := [ fetched_thread sample_utc_date (sample_post 0)
                    [lit "First."; lit "Second."] ];
        trace := [RedditNew (lit "horror") 10; TimerCb] |}).
Proof.
  refine (proj2 (fetch_threads_failure sample_reddit_broken sample_utc_date (lit "horror")
                   10 {| heap := []; trace := [] |} [sample_post 0] _)
            (External 3) sample_post_broken [sample_post 1] None _ _).
  - repeat constructor; by eexists.
  - reflexivity.
  - reflexivity.
Defined.

(** After 125.7 seconds the ticker shows 02:05. *)
Lemma tick_text_clock_witness :
  tick_text (1257 # 10) = [9201; 65039; 32]%N ++ lit "02:05".
Proof.
  refine (proj1 (tick_text_clock (1257 # 10) _ _)); by vm_compute.
Defined.

Lemma fractions_in_range_witness :
  Forall (fun q => (0 < q)%Q /\ (q <= 1)%Q)
    (fractions
       (events_since sample_world
          (snd (summarise_threads sample_chat sample_loads sample_dumps sample_random
                  sample_threads (lit "o3") 6 sample_world)))).
Proof.
  apply (fractions_in_range sample_chat sample_loads sample_dumps sample_random
           sample_threads (lit "o3") 6 sample_world).
  - lia.
  - vm_compute. reflexivity.
Defined.
